(** * djangobulk.bulk: bulk UPSERT of Django objects through one PostgreSQL
    statement.

    A shallow embedding of [src/djangobulk/bulk.py] and the properties of
    its specification.  The Python function [insert_or_update_many] derives
    column lists from a model, builds one SQL statement from a template and
    runs it on a database connection.  Python code is embedded as Rocq
    functions in a small state-and-exception monad; the SQL statement of
    lines 101-120 is embedded twice: as the text the function sends to the
    driver, and as the relational operation that text denotes on the target
    table. *)

From Stdlib Require Import ZArith Lia Ascii.
From stdpp Require Import gmap strings list fin_maps sorting.

(** ** Python values *)

(** Values handed to the database driver ([get_db_prep_save] results):
    [None] (sent as SQL NULL), integers and strings. *)
Inductive pyval :=
| PNone
| PInt (z : Z)
| PStr (s : string).

#[global] Instance pyval_eq_dec : EqDecision pyval.
Proof. solve_decision. Defined.

(** Exceptions that can leave the function. *)
Inductive exn :=
| AssertionError (msg : string)
| KeyError (key : string)
| TypeError (msg : string)
| ValueError (msg : string)
| DatabaseError (msg : string)
| ConnectionDoesNotExist (alias : string).

Inductive result (A : Type) :=
| Ok (a : A)
| Raise (e : exn).
Arguments Ok {A} a.
Arguments Raise {A} e.

#[global] Instance result_ret : MRet result := λ A a, Ok a.
#[global] Instance result_bind : MBind result := λ A B f m,
  match m with Ok a => f a | Raise e => Raise e end.
#[global] Instance result_fmap : FMap result := λ A B f m,
  match m with Ok a => Ok (f a) | Raise e => Raise e end.

(** ** Strings: [str.join] and the [%] operator *)

(** [sep.join(xs)] *)
Fixpoint join (sep : string) (xs : list string) : string :=
  match xs with
  | [] => ""
  | [x] => x
  | x :: xs' => x +:+ sep +:+ join sep xs'
  end.

(** The right operand of [%]: a single string or a tuple of strings
    (positional), or a dict.  The dict of line 82 also holds lists; [str()]
    of those is not modelled. *)
Inductive pyobj :=
| OStr (s : string)
| OStrList (l : list string)
| OOpaque.

Inductive fmt_args :=
| Positional (vals : list string)
| Mapping (d : list (string * pyobj)).

Fixpoint dict_get (d : list (string * pyobj)) (k : string) : option pyobj :=
  match d with
  | [] => None
  | (k', v) :: d' => if String.eqb k' k then Some v else dict_get d' k
  end.

(** Scanner state of the format operator: plain text, just after [%],
    inside the parentheses of [%(key)], and after the closing parenthesis
    (the conversion character is expected). *)
Inductive fmt_state :=
| FText
| FPercent
| FKey (acc : string)
| FConv (key : string).

Definition is_char (c : ascii) (s : string) : bool := String.eqb (String c "") s.

(** [template % args], for the directives the module uses: [%%], [%s] and
    [%(key)s]. *)
Fixpoint pyformat_from (st : fmt_state) (tpl : string) (pos : list string)
    (d : option (list (string * pyobj))) : result string :=
  match tpl with
  | EmptyString =>
      match st with
      | FText =>
          match pos with
          | [] => Ok ""
          | _ :: _ => Raise (TypeError "not all arguments converted during string formatting")
          end
      | _ => Raise (ValueError "incomplete format")
      end
  | String c tpl' =>
      match st with
      | FText =>
          if is_char c "%" then pyformat_from FPercent tpl' pos d
          else String c <$> pyformat_from FText tpl' pos d
      | FPercent =>
          if is_char c "%" then String c <$> pyformat_from FText tpl' pos d
          else if is_char c "s" then
            match d, pos with
            | None, v :: pos' => String.append v <$> pyformat_from FText tpl' pos' d
            | None, [] => Raise (TypeError "not enough arguments for format string")
            | Some _, _ => Raise (TypeError "str() of a dict is not modelled")
            end
          else if is_char c "(" then
            match d with
            | Some _ => pyformat_from (FKey "") tpl' pos d
            | None => Raise (TypeError "format requires a mapping")
            end
          else Raise (ValueError "unsupported format character")
      | FKey acc =>
          if is_char c ")" then pyformat_from (FConv acc) tpl' pos d
          else pyformat_from (FKey (acc +:+ String c "")) tpl' pos d
      | FConv key =>
          if is_char c "s" then
            match d ≫= (λ m, dict_get m key) with
            | Some (OStr v) => String.append v <$> pyformat_from FText tpl' pos d
            | Some _ => Raise (TypeError "str() of a non-string is not modelled")
            | None => Raise (KeyError key)
            end
          else Raise (ValueError "unsupported format character")
      end
  end.

Definition pyformat (tpl : string) (args : fmt_args) : result string :=
  match args with
  | Positional vals => pyformat_from FText tpl vals None
  | Mapping d => pyformat_from FText tpl [] (Some d)
  end.


(** ** Django objects the function reads *)

(** A database connection: [con.ops.quote_name]. *)
Record Connection := {
  quote_name : string -> string
}.

(** A model field: [f.name], [f.column], [f.db_type(con)] and
    [isinstance(f, models.AutoField)]. *)
Record Field := {
  name : string;
  column : string;
  db_type : Connection -> string;
  is_auto : bool
}.

(** [model._meta]: [fields], [pk] and [db_table]. *)
Record Model := {
  meta_fields : list Field;
  meta_pk : Field;
  meta_db_table : string
}.

(** [DEFAULT_DB_ALIAS] of [django.db]: the alias [transaction] functions act
    on when they are called without [using]. *)
Definition DEFAULT_DB_ALIAS : string := "default".

(** ** The database seen by one call *)

(** A row of the target table: column name to value; a column that is
    absent holds NULL. *)
Abbreviation row := (gmap string pyval).

(** Calls made on Django's database layer, each with the alias of the
    connection it acts on. *)
Inductive event :=
| EvCursor (alias : string)
| EvExecute (alias : string) (sql : string) (params : list pyval)
| EvCommitUnlessManaged (alias : string).

#[global] Instance event_eq_dec : EqDecision event.
Proof. solve_decision. Defined.

(** The rows of [model._meta.db_table] as [connections[using]] sees them,
    and the calls made so far. *)
Record World := {
  rows : list row;
  log : list event
}.

Definition M (A : Type) : Type := World -> result A * World.

#[global] Instance M_ret : MRet M := λ A a w, (Ok a, w).
#[global] Instance M_bind : MBind M := λ A B f m w,
  match m w with
  | (Ok a, w') => f a w'
  | (Raise e, w') => (Raise e, w')
  end.

Definition lift {A} (r : result A) : M A := λ w, (r, w).

Definition emit (e : event) (w : World) : World :=
  {| rows := rows w; log := log w ++ [e] |}.

(** [assert cond, msg] *)
Definition py_assert (cond : bool) (msg : string) : M unit :=
  if cond then mret tt else lift (Raise (AssertionError msg)).

(** [con.cursor()] *)
Definition con_cursor (alias : string) : M unit :=
  λ w, (Ok tt, emit (EvCursor alias) w).

(** [cursor.execute(sql, parameters)]: the statement is logged and the
    table becomes what the statement denotes; a statement the engine
    rejects raises and leaves the table as it was. *)
Definition cursor_execute (alias sql : string) (params : list pyval)
    (denotation : list row -> result (list row)) : M unit :=
  λ w, match denotation (rows w) with
       | Ok rs => (Ok tt, {| rows := rs; log := log w ++ [EvExecute alias sql params] |})
       | Raise e => (Raise e, emit (EvExecute alias sql params) w)
       end.

(** [transaction.commit_unless_managed(using=alias)] *)
Definition commit_unless_managed (alias : string) : M unit :=
  λ w, (Ok tt, emit (EvCommitUnlessManaged alias) w).

(** ** The statement of lines 101-120 as an operation on the table *)

(** SQL [=] in a WHERE clause: true only for two equal non-NULL values
    (the values of the model are integers and strings, which the engine
    compares as they are stored). *)
Definition sql_eq (a b : pyval) : Prop := a ≠ PNone ∧ a = b.

#[global] Instance sql_eq_dec a b : Decision (sql_eq a b).
Proof. unfold sql_eq. apply _. Defined.

Definition cell (r : row) (c : string) : pyval := default PNone (r !! c).

(** [a.k1=b.k1 AND a.k2=b.k2 AND ...] over the key columns. *)
Definition keys_agree (kcols : list string) (a b : row) : Prop :=
  Forall (λ c, sql_eq (cell a c) (cell b c)) kcols.

#[global] Instance keys_agree_dec kcols a b : Decision (keys_agree kcols a b).
Proof. unfold keys_agree. apply _. Defined.

(** [SET c1=nv.c1, c2=nv.c2, ...] applied to the row [m]. *)
Definition set_cols (ucols : list string) (nv m : row) : row :=
  foldr (λ c acc, <[c := cell nv c]> acc) m ucols.

(** What the statement leaves to the database engine: the cast [v::type] of
    a parameter to a declared type (the value as the engine holds it), the
    engine's own reasons to reject the statement (a value out of the range
    of its type, a constraint of the table) as a function of the parameters
    and the table, the order in which it inserts the new rows (a comparison
    of their positions in the VALUES list), and the values it assigns to the
    columns an INSERT leaves out (a serial id, column defaults) for the
    first, second, ... row it inserts. *)
Record Engine := {
  sql_cast : string -> pyval -> pyval;
  rejects : list pyval -> list row -> option string;
  inserts_before : list row -> nat -> nat -> bool;
  assigned : list row -> nat -> row
}.

(** Lines 102-105, [WITH new_values (cols) AS (VALUES (%s::t1, ..), ...)]:
    [n] tuples of [length cols] parameters each, taken from the flat
    parameter list in order, each parameter cast to the type written after
    its placeholder (line 64). *)
Definition new_values (engine : Engine) (cols types : list string) (n : nat)
    (params : list pyval) : list row :=
  (λ vs, list_to_map (zip cols (zip_with (sql_cast engine) types vs)))
  <$> reshape (replicate n (length cols)) params.

(** Lines 108-111, [UPDATE table m SET ... FROM new_values nv WHERE
    m.k=nv.k AND ...], on one row of the table.  A row joined to several
    rows of [new_values] is updated from one of them; the engine does not
    say which, PostgreSQL is seen to take the last, and so does the model. *)
Definition update_row (kcols ucols : list string) (nvs : list row) (m : row) : row :=
  match last (filter (keys_agree kcols m) nvs) with
  | Some nv => set_cols ucols nv m
  | None => m
  end.

(** Line 112, [RETURNING m.*]: the rows the UPDATE changed, as they are
    afterwards. *)
Definition returning (kcols ucols : list string) (nvs tbl : list row) : list row :=
  update_row kcols ucols nvs <$> filter (λ m, Exists (keys_agree kcols m) nvs) tbl.

(** The [k]-th new row as it is inserted: the columns of the column list
    from the VALUES tuple, the others as the engine assigns them. *)
Definition inserted_row (engine : Engine) (tbl : list row) (k : nat) (nv : row) : row :=
  nv ∪ assigned engine tbl k.

(** The engine's order on the new rows, each with its position in the
    VALUES list. *)
Definition insertion_order (engine : Engine) (tbl : list row)
    (ps : list (nat * row)) : list (nat * row) :=
  merge_sort (λ p q, inserts_before engine tbl p.1 q.1) ps.

(** Lines 114-119, [INSERT INTO table (cols) SELECT cols FROM new_values
    WHERE NOT EXISTS (SELECT 1 FROM upsert up WHERE up.k=new_values.k AND
    ...)]: the rows the statement adds, in the order in which the engine
    inserts them. *)
Definition to_insert (engine : Engine) (kcols : list string) (tbl ups nvs : list row) : list row :=
  imap (λ k p, inserted_row engine tbl k p.2)
    (insertion_order engine tbl
       (filter (λ p, ¬ Exists (λ up, keys_agree kcols up p.2) ups) (imap pair nvs))).

(** The whole statement.  Both sub-statements read the table as it was
    before the statement.  An empty SET list or an empty WHERE condition is
    a syntax error; the engine may reject the statement for reasons of its
    own; a rejected statement changes nothing. *)
Definition upsert_statement (engine : Engine) (cols types ucols kcols : list string) (n : nat)
    (params : list pyval) (tbl : list row) : result (list row) :=
  match ucols, kcols with
  | [], _ | _, [] => Raise (DatabaseError "syntax error")
  | _ :: _, _ :: _ =>
      match rejects engine params tbl with
      | Some msg => Raise (DatabaseError msg)
      | None =>
          let nvs := new_values engine cols types n params in
          let ups := returning kcols ucols nvs tbl in
          Ok ((update_row kcols ucols nvs <$> tbl) ++ to_insert engine kcols tbl ups nvs)
      end
  end.

(** ** bulk.py *)

Definition sql_template : string :=
"
        WITH new_values (%(all_col_names)s) AS (
          VALUES
            %(placeholders)s
        ),
        upsert AS
        (
            UPDATE %(table)s m
                SET %(assignments)s
            FROM new_values nv
            WHERE %(where_keys)s
            RETURNING m.*
        )
        INSERT INTO %(table)s (%(all_col_names)s)
        SELECT %(all_col_names)s
        FROM new_values
        WHERE NOT EXISTS (SELECT 1
                          FROM upsert up
                          WHERE %(up_where_keys)s)
    ".

Section Bulk.

(** Django's side of the call: the aliases of [settings.DATABASES] and the
    connection [django.db.connections] holds for each of them, the class of
    the objects, and, for the time of the call,
    [f.get_db_prep_save(f.pre_save(obj, True), connection=con)] ([pre_save]
    of an [auto_now] field takes the time of the call, so two calls may have
    different functions here).  The engine is the one behind the
    connection. *)
Context {Obj : Type}.
Variable databases : list string.
Variable connections : string -> Connection.
Variable get_db_prep_save : Field -> Obj -> Connection -> pyval.
Variable engine : Engine.

(** [connections[alias]] (line 40): an alias that is not configured
    raises. *)
Definition connections_getitem (alias : string) : result Connection :=
  if decide (alias ∈ databases) then Ok (connections alias)
  else Raise (ConnectionDoesNotExist alias).

(** lines 14-16 *)
Definition _model_fields (model : Model) : list Field :=
  filter (λ f, ¬ is_auto f) (meta_fields model).

(** lines 19-21 *)
Definition _prep_values (fields : list Field) (obj : Obj) (con : Connection) : list pyval :=
  (λ f, get_db_prep_save f obj con) <$> fields.

(** [keys or [model._meta.pk.name]] (line 39) *)
Definition keys_or_pk (model : Model) (keys : option (list string)) : list string :=
  match keys with
  | None | Some [] => [name (meta_pk model)]
  | Some (k :: ks) => k :: ks
  end.

(** line 51 *)
Definition key_fields_of (model : Model) (keys : list string) : list Field :=
  filter (λ f, name f ∈ keys ∧ name f ∈ (name <$> _model_fields model)) (meta_fields model).

(** line 59 *)
Definition update_fields_of (model : Model) (keys skip_for_update : list string) : list Field :=
  filter (λ f, (name f ∉ keys) ∧ (name f ∉ skip_for_update)
               ∧ name f ∈ (name <$> _model_fields model)) (meta_fields model).

(** [",".join(con.ops.quote_name(f.column) for f in fields)] *)
Definition col_names (con : Connection) (fields : list Field) : string :=
  join "," ((λ f, quote_name con (column f)) <$> fields).

(** [sep.join(tpl % {'f': con.ops.quote_name(f.column)} for f in fields)]
    (lines 70-80) *)
Definition join_cols (sep tpl : string) (con : Connection) (fields : list Field) : result string :=
  join sep <$> mapM (λ f, pyformat tpl (Mapping [("f", OStr (quote_name con (column f)))])) fields.

(** lines 24-127; [using_] is the parameter [using] *)
Definition insert_or_update_many (model : Model) (objects : list Obj)
    (keys : option (list string)) (skip_for_update : list string) (using_ : string) : M unit :=
  match objects with
  | [] => mret tt
  | _ :: _ =>
      let keys := keys_or_pk model keys in
      con ← lift (connections_getitem using_);
      let table := meta_db_table model in
      let all_fields := _model_fields model in
      let all_field_names := name <$> all_fields in
      let all_col_names := col_names con all_fields in
      let key_fields := key_fields_of model keys in
      let key_col_names := col_names con key_fields in
      py_assert (bool_decide (key_fields ≠ [])) "Empty key fields";;
      let update_fields := update_fields_of model keys skip_for_update in
      let update_col_names := col_names con update_fields in
      casts ← lift (mapM (λ f, pyformat "%%s::%s" (Positional [db_type f con])) all_fields);
      tuple_placeholder ← lift (pyformat "(%s)" (Positional [join "," casts]));
      let placeholders := join "," (replicate (length objects) tuple_placeholder) in
      let parameters := (λ o, _prep_values all_fields o con) <$> objects in
      let parameters := concat parameters in
      assignments ← lift (join_cols "," "%(f)s=nv.%(f)s" con update_fields);
      where_keys ← lift (join_cols " AND " "m.%(f)s=nv.%(f)s" con key_fields);
      up_where_keys ← lift (join_cols " AND " "up.%(f)s=new_values.%(f)s" con key_fields);
      let sql_replacements :=
        [("keys", OStrList keys);
         ("table", OStr table);
         ("all_fields", OOpaque);
         ("all_col_names", OStr all_col_names);
         ("key_fields", OOpaque);
         ("key_col_names", OStr key_col_names);
         ("update_fields", OOpaque);
         ("update_col_names", OStr update_col_names);
         ("tuple_placeholder", OStr tuple_placeholder);
         ("placeholders", OStr placeholders);
         ("parameters", OOpaque);
         ("assignments", OStr assignments);
         ("where_keys", OStr where_keys);
         ("up_where_keys", OStr up_where_keys)] in
      sql ← lift (pyformat sql_template (Mapping sql_replacements));
      con_cursor using_;;
      cursor_execute using_ sql parameters
        (upsert_statement engine (column <$> all_fields)
           ((λ f, db_type f con) <$> all_fields) (column <$> update_fields)
           (column <$> key_fields) (length objects) parameters);;
      (* line 127 passes no [using]: Django takes the default alias *)
      commit_unless_managed DEFAULT_DB_ALIAS
  end.

End Bulk.

(** ** The statement shape of the specification *)

(** The [Generated SQL shape] of the specification, written out from its
    description: the column list, one cast placeholder per column, one
    VALUES tuple per record, the SET list over the update columns and the
    two key conditions.  Line breaks and indentation are those of the
    template of line 101. *)
Section Shape.

Variable con : Connection.

Definition quoted (f : Field) : string := quote_name con (column f).

Definition column_list (fields : list Field) : string := join "," (quoted <$> fields).

Definition cast_placeholder (f : Field) : string := "%s::" +:+ db_type f con.

Definition values_tuple (all_fields : list Field) : string :=
  "(" +:+ join "," (cast_placeholder <$> all_fields) +:+ ")".

Definition values_list {Obj} (all_fields : list Field) (objects : list Obj) : string :=
  join "," ((λ _, values_tuple all_fields) <$> objects).

Definition set_list (update_fields : list Field) : string :=
  join "," ((λ f, quoted f +:+ "=nv." +:+ quoted f) <$> update_fields).

Definition update_condition (key_fields : list Field) : string :=
  join " AND " ((λ f, "m." +:+ quoted f +:+ "=nv." +:+ quoted f) <$> key_fields).

Definition insert_condition (key_fields : list Field) : string :=
  join " AND " ((λ f, "up." +:+ quoted f +:+ "=new_values." +:+ quoted f) <$> key_fields).

Definition statement_text (table columns values assignments on_update on_insert : string) : string :=
  "
        WITH new_values (" +:+ columns +:+ ") AS (
          VALUES
            " +:+ values +:+ "
        ),
        upsert AS
        (
            UPDATE " +:+ table +:+ " m
                SET " +:+ assignments +:+ "
            FROM new_values nv
            WHERE " +:+ on_update +:+ "
            RETURNING m.*
        )
        INSERT INTO " +:+ table +:+ " (" +:+ columns +:+ ")
        SELECT " +:+ columns +:+ "
        FROM new_values
        WHERE NOT EXISTS (SELECT 1
                          FROM upsert up
                          WHERE " +:+ on_insert +:+ ")
    ".

Definition upsert_sql {Obj} (table : string) (all_fields update_fields key_fields : list Field)
    (objects : list Obj) : string :=
  statement_text table (column_list all_fields) (values_list all_fields objects)
    (set_list update_fields) (update_condition key_fields) (insert_condition key_fields).

End Shape.

(** The statement as the specification prints it (its section 6), with
    the specification's own line breaks and with [", "] between the items
    of a list. *)
Section Specified.

Variable con : Connection.

Definition specified_columns (fields : list Field) : string := join ", " (quoted con <$> fields).

Definition specified_values {Obj} (all_fields : list Field) (objects : list Obj) : string :=
  join ", " ((λ _, "(" +:+ join ", " (cast_placeholder con <$> all_fields) +:+ ")") <$> objects).

Definition specified_set_list (update_fields : list Field) : string :=
  join ", " ((λ f, quoted con f +:+ "=nv." +:+ quoted con f) <$> update_fields).

Definition specified_text (table columns values assignments on_update on_insert : string) : string :=
  "WITH new_values (" +:+ columns +:+ ") AS (VALUES " +:+ values +:+ "),
upsert AS (
  UPDATE " +:+ table +:+ " m SET " +:+ assignments +:+ "
  FROM new_values nv
  WHERE " +:+ on_update +:+ "
  RETURNING m.*
)
INSERT INTO " +:+ table +:+ " (" +:+ columns +:+ ")
SELECT " +:+ columns +:+ " FROM new_values
WHERE NOT EXISTS (SELECT 1 FROM upsert up WHERE " +:+ on_insert +:+ ")".

End Specified.

(** A text without its blanks and line breaks. *)
Definition is_blank (c : ascii) : bool :=
  Ascii.eqb c " " || Ascii.eqb c "010".

Fixpoint squash (s : string) : string :=
  match s with
  | EmptyString => EmptyString
  | String c s' => if is_blank c then squash s' else String c (squash s')
  end.

(** ** The statement of one call *)

Section Statement.

Context {Obj : Type}.
Variable databases : list string.
Variable connections : string -> Connection.
Variable get_db_prep_save : Field -> Obj -> Connection -> pyval.
Variable engine : Engine.

(** The flat parameter list of line 68. *)
Definition parameters_of (model : Model) (objects : list Obj) (using_ : string) : list pyval :=
  concat ((λ o, _prep_values get_db_prep_save (_model_fields model) o (connections using_))
          <$> objects).

(** The statement the call executes, as an operation on the table. *)
Definition statement_of (model : Model) (objects : list Obj) (keys : option (list string))
    (skip_for_update : list string) (using_ : string) : list row -> result (list row) :=
  upsert_statement engine (column <$> _model_fields model)
    ((λ f, db_type f (connections using_)) <$> _model_fields model)
    (column <$> update_fields_of model (keys_or_pk model keys) skip_for_update)
    (column <$> key_fields_of model (keys_or_pk model keys))
    (length objects) (parameters_of model objects using_).

(** The text of that statement. *)
Definition sql_of (model : Model) (objects : list Obj) (keys : option (list string))
    (skip_for_update : list string) (using_ : string) : string :=
  upsert_sql (connections using_) (meta_db_table model) (_model_fields model)
    (update_fields_of model (keys_or_pk model keys) skip_for_update)
    (key_fields_of model (keys_or_pk model keys)) objects.

End Statement.

(** The calls a computation adds to the log of a world. *)
Definition calls {A} (m : M A) (w : World) : list event :=
  drop (length (log w)) (log (m w).2).

(** The placeholders of the VALUES list and the values sent for them, as
    one row per record and one cell per table field. *)
Definition placeholder_grid {Obj} (con : Connection) (all_fields : list Field)
    (objects : list Obj) : list (list string) :=
  (λ _, cast_placeholder con <$> all_fields) <$> objects.

Definition parameter_grid {Obj} (get_db_prep_save : Field -> Obj -> Connection -> pyval)
    (con : Connection) (all_fields : list Field) (objects : list Obj) : list (list pyval) :=
  (λ o, (λ f, get_db_prep_save f o con) <$> all_fields) <$> objects.

(** A record as a row of [new_values]: its values, cast to the types of
    their columns. *)
Definition record_row {Obj} (engine : Engine)
    (get_db_prep_save : Field -> Obj -> Connection -> pyval)
    (con : Connection) (all_fields : list Field) (o : Obj) : row :=
  list_to_map (zip (column <$> all_fields)
                 ((λ f, sql_cast engine (db_type f con) (get_db_prep_save f o con))
                  <$> all_fields)).

(** The key of a record: the values of its key fields, as the record has
    them ([key_tuple]) and as the statement compares them, cast to the
    types of their columns ([cast_key_tuple]). *)
Definition key_tuple {Obj} (get_db_prep_save : Field -> Obj -> Connection -> pyval)
    (con : Connection) (key_fields : list Field) (o : Obj) : list pyval :=
  (λ f, get_db_prep_save f o con) <$> key_fields.

Definition cast_key_tuple {Obj} (engine : Engine)
    (get_db_prep_save : Field -> Obj -> Connection -> pyval)
    (con : Connection) (key_fields : list Field) (o : Obj) : list pyval :=
  (λ f, sql_cast engine (db_type f con) (get_db_prep_save f o con)) <$> key_fields.

(** The rows of a table that carry the key of a record. *)
Definition rows_with_key_of {Obj} (engine : Engine)
    (get_db_prep_save : Field -> Obj -> Connection -> pyval)
    (con : Connection) (all_fields key_fields : list Field) (o : Obj) (tbl : list row) : list row :=
  filter (λ m, keys_agree (column <$> key_fields) m
                 (record_row engine get_db_prep_save con all_fields o)) tbl.

(** The round trip and the idempotence of the specification, as it states
    them: for records with distinct keys, after the call every record's key
    selects exactly one row, and that row holds the record's value in every
    remaining table field; and two calls leave the table as one call
    does. *)
Definition round_trip_as_specified {Obj} (databases : list string)
    (connections : string -> Connection)
    (get_db_prep_save : Field -> Obj -> Connection -> pyval) (engine : Engine) (model : Model)
    (objects : list Obj) (keys : option (list string)) (skip_for_update : list string)
    (using_ : string) (w : World) : Prop :=
  let con := connections using_ in
  let all_fields := _model_fields model in
  let key_fields := key_fields_of model (keys_or_pk model keys) in
  objects ≠ [] →
  NoDup (key_tuple get_db_prep_save con key_fields <$> objects) →
  ∀ w', insert_or_update_many databases connections get_db_prep_save engine model objects
          keys skip_for_update using_ w = (Ok tt, w') →
  ∀ o, o ∈ objects →
    ∃ m, rows_with_key_of engine get_db_prep_save con all_fields key_fields o (rows w') = [m]
      ∧ ∀ f, f ∈ all_fields → f ∉ key_fields → cell m (column f) = get_db_prep_save f o con.

Definition idempotent_as_specified {Obj} (databases : list string)
    (connections : string -> Connection)
    (get_db_prep_save : Field -> Obj -> Connection -> pyval) (engine : Engine) (model : Model)
    (objects : list Obj) (keys : option (list string)) (skip_for_update : list string)
    (using_ : string) (w : World) : Prop :=
  let call := insert_or_update_many databases connections get_db_prep_save engine model
                objects keys skip_for_update using_ in
  rows (call (call w).2).2 = rows (call w).2.

(** ** A concrete model: widgets(id, sku, qty, note) *)

Module Widgets.

(** PostgreSQL's [quote_name] for a name that is not quoted yet. *)
Definition dquote : ascii := ascii_of_nat 34.

Definition postgresql : Connection :=
  {| quote_name := λ c, String dquote (c +:+ String dquote "") |}.

(** The aliases of [settings.DATABASES]. *)
Definition databases : list string := ["default"; "replica"].

Definition connections (alias : string) : Connection := postgresql.

Definition id : Field :=
  {| name := "id"; column := "id"; db_type := λ _, "serial"; is_auto := true |}.
Definition sku : Field :=
  {| name := "sku"; column := "sku"; db_type := λ _, "varchar(16)"; is_auto := false |}.
Definition qty : Field :=
  {| name := "qty"; column := "qty"; db_type := λ _, "integer"; is_auto := false |}.
Definition note : Field :=
  {| name := "note"; column := "note"; db_type := λ _, "text"; is_auto := false |}.

Definition Widget : Model :=
  {| meta_fields := [id; sku; qty; note]; meta_pk := id; meta_db_table := "widgets" |}.

(** A [Widget] instance: the values of its attributes ([id] is left to the
    database). *)
Record widget := { w_sku : pyval; w_qty : pyval; w_note : pyval }.

Definition get_db_prep_save (f : Field) (o : widget) (con : Connection) : pyval :=
  if String.eqb (name f) "sku" then w_sku o
  else if String.eqb (name f) "qty" then w_qty o
  else if String.eqb (name f) "note" then w_note o
  else PNone.

(** The engine of the widgets database: a string cast to [varchar(16)]
    keeps its first sixteen characters, other casts keep the value; no
    statement is rejected; the new rows are inserted from the last tuple of
    the VALUES list to the first, and each gets the next [id]. *)
Definition cast (type : string) (v : pyval) : pyval :=
  match v with
  | PStr s => if String.eqb type "varchar(16)" then PStr (String.substring 0 16 s) else v
  | _ => v
  end.

Definition engine : Engine :=
  {| sql_cast := cast;
     rejects := λ _ _, None;
     inserts_before := λ _ i j, Nat.leb j i;
     assigned := λ tbl k, {["id" := PInt (Z.of_nat (length tbl + k + 1))]} |}.

Definition a5 : widget := {| w_sku := PStr "A"; w_qty := PInt 5; w_note := PStr "new" |}.
Definition a9 : widget := {| w_sku := PStr "A"; w_qty := PInt 9; w_note := PStr "newer" |}.
Definition b2 : widget := {| w_sku := PStr "B"; w_qty := PInt 2; w_note := PStr "" |}.
Definition unnamed : widget := {| w_sku := PNone; w_qty := PInt 1; w_note := PStr "" |}.
Definition long_a : widget :=
  {| w_sku := PStr "ABCDEFGHIJKLMNOPQ"; w_qty := PInt 5; w_note := PStr "new" |}.
Definition long_b : widget :=
  {| w_sku := PStr "ABCDEFGHIJKLMNOPR"; w_qty := PInt 9; w_note := PStr "newer" |}.

(** The values prepared at a later call, were [note] a field whose
    [pre_save] takes the time of the call. *)
Definition get_db_prep_save_later (f : Field) (o : widget) (con : Connection) : pyval :=
  if String.eqb (name f) "note" then PStr "later" else get_db_prep_save f o con.

Definition stored (i : Z) (s : string) (q : Z) (n : string) : row :=
  list_to_map [("id", PInt i); ("sku", PStr s); ("qty", PInt q); ("note", PStr n)].

Definition empty_table : World := {| rows := []; log := [] |}.
Definition one_row : World := {| rows := [stored 1 "A" 1 "old"]; log := [] |}.
Definition two_rows_one_key : World :=
  {| rows := [stored 1 "A" 1 "old"; stored 2 "A" 2 "older"]; log := [] |}.
Definition sixteen : World := {| rows := [stored 1 "ABCDEFGHIJKLMNOP" 1 "old"]; log := [] |}.

End Widgets.

(** ** A model whose primary key is not an auto field: tags(slug, label) *)

Module Tags.

Definition slug : Field :=
  {| name := "slug"; column := "slug"; db_type := λ _, "varchar(50)"; is_auto := false |}.
Definition label : Field :=
  {| name := "label"; column := "label"; db_type := λ _, "text"; is_auto := false |}.

Definition Tag : Model :=
  {| meta_fields := [slug; label]; meta_pk := slug; meta_db_table := "tags" |}.

End Tags.

(** * Properties *)

(** ** Strings and formatting *)

Example pyformat_cast : pyformat "%%s::%s" (Positional ["integer"]) = Ok "%s::integer".
Proof. reflexivity. Qed.

Example pyformat_assign :
  pyformat "%(f)s=nv.%(f)s" (Mapping [("f", OStr "qty")]) = Ok "qty=nv.qty".
Proof. reflexivity. Qed.

Lemma append_nil_r (s : string) : s +:+ "" = s.
Proof.
  induction s as [|c s IH]; [done |].
  change (String c (s +:+ "") = String c s). by rewrite IH.
Qed.

Lemma append_assoc (s1 s2 s3 : string) : (s1 +:+ s2) +:+ s3 = s1 +:+ s2 +:+ s3.
Proof.
  induction s1 as [|c s1 IH]; [done |].
  change (String c ((s1 +:+ s2) +:+ s3) = String c (s1 +:+ s2 +:+ s3)). by rewrite IH.
Qed.

Lemma mapM_Ok {A B} (f : A → result B) (g : A → B) (l : list A) :
  (∀ x, f x = Ok (g x)) → mapM f l = Ok (g <$> l).
Proof.
  intros Hf. induction l as [|x l IH]; [done |].
  cbn [mapM]. rewrite Hf. cbn. fold (mapM f l). rewrite IH. done.
Qed.

Lemma pyformat_cast_placeholder (ty : string) :
  pyformat "%%s::%s" (Positional [ty]) = Ok ("%s::" +:+ ty).
Proof.
  transitivity (Ok (A:=string) ("%s::" +:+ ty +:+ "")); [by vm_compute |].
  by rewrite append_nil_r.
Qed.

Lemma pyformat_tuple (items : string) :
  pyformat "(%s)" (Positional [items]) = Ok ("(" +:+ items +:+ ")").
Proof. by vm_compute. Qed.

Lemma pyformat_assignment (q : string) :
  pyformat "%(f)s=nv.%(f)s" (Mapping [("f", OStr q)]) = Ok (q +:+ "=nv." +:+ q).
Proof.
  transitivity (Ok (A:=string) (q +:+ "=nv." +:+ q +:+ "")); [by vm_compute |].
  by rewrite append_nil_r.
Qed.

Lemma pyformat_where_key (q : string) :
  pyformat "m.%(f)s=nv.%(f)s" (Mapping [("f", OStr q)]) = Ok ("m." +:+ q +:+ "=nv." +:+ q).
Proof.
  transitivity (Ok (A:=string) ("m." +:+ q +:+ "=nv." +:+ q +:+ "")); [by vm_compute |].
  by rewrite append_nil_r.
Qed.

Lemma pyformat_up_where_key (q : string) :
  pyformat "up.%(f)s=new_values.%(f)s" (Mapping [("f", OStr q)])
  = Ok ("up." +:+ q +:+ "=new_values." +:+ q).
Proof.
  transitivity (Ok (A:=string) ("up." +:+ q +:+ "=new_values." +:+ q +:+ "")); [by vm_compute |].
  by rewrite append_nil_r.
Qed.

(** The template of line 101 filled from the dict of line 82. *)
Lemma pyformat_sql_template (keys : list string)
    (table all_col_names key_col_names update_col_names tuple_placeholder placeholders
     assignments where_keys up_where_keys : string) :
  pyformat sql_template (Mapping
    [("keys", OStrList keys);
     ("table", OStr table);
     ("all_fields", OOpaque);
     ("all_col_names", OStr all_col_names);
     ("key_fields", OOpaque);
     ("key_col_names", OStr key_col_names);
     ("update_fields", OOpaque);
     ("update_col_names", OStr update_col_names);
     ("tuple_placeholder", OStr tuple_placeholder);
     ("placeholders", OStr placeholders);
     ("parameters", OOpaque);
     ("assignments", OStr assignments);
     ("where_keys", OStr where_keys);
     ("up_where_keys", OStr up_where_keys)])
  = Ok (statement_text table all_col_names placeholders assignments where_keys up_where_keys).
Proof. vm_compute. reflexivity. Qed.

(** ** What one call does *)

Section Run.

Context {Obj : Type}.
Variable databases : list string.
Variable connections : string -> Connection.
Variable get_db_prep_save : Field -> Obj -> Connection -> pyval.
Variable engine : Engine.

Local Abbreviation parameters := (parameters_of connections get_db_prep_save).
Local Abbreviation statement := (statement_of connections get_db_prep_save engine).
Local Abbreviation sql_text := (sql_of connections).

Lemma replicate_length_fmap {A B} (l : list A) (x : B) :
  replicate (length l) x = (λ _, x) <$> l.
Proof. induction l as [|a l IH]; [done |]. cbn. by rewrite IH. Qed.

Lemma join_cols_Ok (sep tpl : string) (g : string → string) (con : Connection) (fields : list Field) :
  (∀ q, pyformat tpl (Mapping [("f", OStr q)]) = Ok (g q)) →
  join_cols sep tpl con fields = Ok (join sep ((λ f, g (quoted con f)) <$> fields)).
Proof.
  intros Hg. unfold join_cols.
  rewrite (mapM_Ok _ (λ f, g (quoted con f))); [done |].
  intros f. apply Hg.
Qed.

Lemma insert_or_update_many_empty model keys skip_for_update using_ w :
  insert_or_update_many databases connections get_db_prep_save engine model [] keys
    skip_for_update using_ w
  = (Ok tt, w).
Proof. reflexivity. Qed.

Lemma insert_or_update_many_run model o os keys skip_for_update using_ w :
  let objects := o :: os in
  insert_or_update_many databases connections get_db_prep_save engine model objects keys
    skip_for_update using_ w
  = if decide (using_ ∈ databases) then
    if decide (key_fields_of model (keys_or_pk model keys) = [])
    then (Raise (AssertionError "Empty key fields"), w)
    else
      let sql := sql_text model objects keys skip_for_update using_ in
      let parameters := parameters model objects using_ in
      match statement model objects keys skip_for_update using_ (rows w) with
      | Ok rs =>
          (Ok tt,
           {| rows := rs;
              log := log w ++ [EvCursor using_; EvExecute using_ sql parameters;
                               EvCommitUnlessManaged DEFAULT_DB_ALIAS] |})
      | Raise e =>
          (Raise e,
           {| rows := rows w;
              log := log w ++ [EvCursor using_; EvExecute using_ sql parameters] |})
      end
    else (Raise (ConnectionDoesNotExist using_), w).
Proof.
  intros objects. unfold insert_or_update_many, objects, connections_getitem.
  cbv zeta.
  case_decide as Hconf; [| reflexivity].
  case_decide as Hk.
  - unfold mbind, M_bind, lift. rewrite Hk. reflexivity.
  - unfold py_assert. rewrite bool_decide_true by done.
    unfold mbind, M_bind, lift, mret, M_ret.
    rewrite (mapM_Ok _ (cast_placeholder (connections using_)))
      by (intros f; apply pyformat_cast_placeholder).
    rewrite pyformat_tuple.
    rewrite (join_cols_Ok _ _ (λ q, q +:+ "=nv." +:+ q)) by apply pyformat_assignment.
    rewrite (join_cols_Ok _ _ (λ q, "m." +:+ q +:+ "=nv." +:+ q)) by apply pyformat_where_key.
    rewrite (join_cols_Ok _ _ (λ q, "up." +:+ q +:+ "=new_values." +:+ q))
      by apply pyformat_up_where_key.
    rewrite pyformat_sql_template.
    unfold con_cursor, cursor_execute, commit_unless_managed, emit.
    cbn [rows log].
    rewrite replicate_length_fmap.
    unfold statement_of, parameters_of, sql_of, upsert_sql.
    fold (values_tuple (connections using_) (_model_fields model)).
    destruct (upsert_statement _ _ _ _ _ _ _ _) as [rs|e]; cbn [rows log].
    + rewrite <- !app_assoc. reflexivity.
    + rewrite <- !app_assoc. reflexivity.
Qed.

End Run.

(** ** The calls made on the database layer *)

Section Calls.

Context {Obj : Type}.
Variable databases : list string.
Variable connections : string -> Connection.
Variable get_db_prep_save : Field -> Obj -> Connection -> pyval.
Variable engine : Engine.

Local Abbreviation run := (insert_or_update_many databases connections get_db_prep_save engine).
Local Abbreviation parameters := (parameters_of connections get_db_prep_save).
Local Abbreviation statement := (statement_of connections get_db_prep_save engine).
Local Abbreviation sql_text := (sql_of connections).

Lemma calls_app {A} (m : M A) (w : World) (new : list event) :
  log (m w).2 = log w ++ new → calls m w = new.
Proof. intros H. unfold calls. rewrite H. apply drop_app_length. Qed.

Lemma insert_or_update_many_calls model objects keys skip_for_update using_ w :
  calls (run model objects keys skip_for_update using_) w =
  match objects with
  | [] => []
  | _ :: _ =>
      if decide (using_ ∈ databases) then
        if decide (key_fields_of model (keys_or_pk model keys) = []) then []
        else
          [EvCursor using_;
           EvExecute using_ (sql_text model objects keys skip_for_update using_)
             (parameters model objects using_)]
          ++ match statement model objects keys skip_for_update using_ (rows w) with
             | Ok _ => [EvCommitUnlessManaged DEFAULT_DB_ALIAS]
             | Raise _ => []
             end
      else []
  end.
Proof.
  destruct objects as [|o os].
  - apply calls_app. rewrite insert_or_update_many_empty. cbn. by rewrite app_nil_r.
  - apply calls_app. rewrite insert_or_update_many_run. cbv zeta.
    case_decide; [| cbn; by rewrite app_nil_r].
    case_decide; [cbn; by rewrite app_nil_r |].
    by destruct (statement _ _ _ _ _ _).
Qed.

(** A call that executes a statement has records and key fields, and
    executes the statement [sql_of] with the parameters [parameters_of]. *)
Lemma executed_statement model objects keys skip_for_update using_ w alias sql params :
  EvExecute alias sql params ∈ calls (run model objects keys skip_for_update using_) w →
  objects ≠ [] ∧ key_fields_of model (keys_or_pk model keys) ≠ [] ∧ alias = using_
  ∧ sql = sql_text model objects keys skip_for_update using_
  ∧ params = parameters model objects using_.
Proof.
  rewrite insert_or_update_many_calls.
  destruct objects as [|o os]; [by intros ?%elem_of_nil |].
  case_decide as Hconf; [| by intros ?%elem_of_nil].
  case_decide as Hk; [by intros ?%elem_of_nil |].
  intros Hin. apply elem_of_cons in Hin as [?|Hin]; [done |].
  apply elem_of_cons in Hin as [Heq|Hin].
  - by injection Heq as -> -> ->.
  - destruct (statement _ _ _ _ _ _).
    + by apply list_elem_of_singleton in Hin.
    + by apply elem_of_nil in Hin.
Qed.

(** A statement is executed on a configured alias only. *)
Lemma executed_on_configured model objects keys skip_for_update using_ w alias sql params :
  EvExecute alias sql params ∈ calls (run model objects keys skip_for_update using_) w →
  using_ ∈ databases.
Proof.
  rewrite insert_or_update_many_calls.
  destruct objects as [|o os]; [by intros ?%elem_of_nil |].
  case_decide as Hconf; [done | by intros ?%elem_of_nil].
Qed.

(** A call with records on an alias that is not configured raises at line
    40, before the assertion and before any call on the database layer. *)
Lemma unconfigured_alias_raises model o os keys skip_for_update using_ w :
  using_ ∉ databases →
  run model (o :: os) keys skip_for_update using_ w
  = (Raise (ConnectionDoesNotExist using_), w).
Proof. intros Hconf. rewrite insert_or_update_many_run. cbv zeta. by rewrite decide_False. Qed.

Lemma upsert_statement_raises cols types ucols kcols n params tbl e :
  upsert_statement engine cols types ucols kcols n params tbl = Raise e →
  ∃ msg, e = DatabaseError msg.
Proof.
  unfold upsert_statement. destruct ucols, kcols; intros H; simplify_eq; eauto.
  destruct (rejects engine params tbl); simplify_eq; eauto.
Qed.

End Calls.

(** ** Key fields and update fields *)

Section Fields.

Variable model : Model.

Lemma elem_of_model_fields (f : Field) :
  f ∈ _model_fields model ↔ f ∈ meta_fields model ∧ ¬ is_auto f.
Proof. unfold _model_fields. rewrite list_elem_of_filter. tauto. Qed.

(** With distinct field names, a field whose name is that of a non-auto
    field is that field. *)
Lemma name_of_model_field (f : Field) :
  NoDup (name <$> meta_fields model) →
  f ∈ meta_fields model → name f ∈ (name <$> _model_fields model) → f ∈ _model_fields model.
Proof.
  intros Hnd Hf Hn. apply list_elem_of_fmap in Hn as (g & Hfg & Hg).
  apply elem_of_model_fields in Hg as [Hg Hauto].
  apply elem_of_model_fields. split; [done |].
  assert (f = g) as ->; [| done].
  apply list_elem_of_lookup in Hf as [i Hi]. apply list_elem_of_lookup in Hg as [j Hj].
  assert (i = j) as ->.
  { eapply NoDup_lookup; [exact Hnd | |].
    - rewrite list_lookup_fmap, Hi. reflexivity.
    - rewrite list_lookup_fmap, Hj. cbn. by rewrite Hfg. }
  congruence.
Qed.

Lemma elem_of_key_fields (keys : list string) (f : Field) :
  f ∈ key_fields_of model keys ↔
  f ∈ meta_fields model ∧ name f ∈ keys ∧ name f ∈ (name <$> _model_fields model).
Proof. unfold key_fields_of. rewrite list_elem_of_filter. tauto. Qed.

Lemma elem_of_update_fields (keys skip : list string) (f : Field) :
  f ∈ update_fields_of model keys skip ↔
  f ∈ meta_fields model ∧ (name f ∉ keys) ∧ (name f ∉ skip)
  ∧ name f ∈ (name <$> _model_fields model).
Proof. unfold update_fields_of. rewrite list_elem_of_filter. tauto. Qed.

(** The key fields resolve to nothing exactly when no table field is named
    in [keys]. *)
Lemma key_fields_nil (keys : list string) :
  key_fields_of model keys = [] ↔ ∀ f, f ∈ _model_fields model → name f ∉ keys.
Proof.
  split.
  - intros Hnil f Hf Hk.
    assert (f ∈ key_fields_of model keys) as Hin.
    { apply elem_of_key_fields. apply elem_of_model_fields in Hf as Hf'.
      split_and!; [tauto | done |]. by apply list_elem_of_fmap_2. }
    rewrite Hnil in Hin. by apply elem_of_nil in Hin.
  - intros Hno. destruct (key_fields_of model keys) as [|f l] eqn:E; [done |].
    assert (f ∈ key_fields_of model keys) as Hin by (rewrite E; left).
    apply elem_of_key_fields in Hin as (_ & Hk & Hn).
    apply list_elem_of_fmap in Hn as (g & Hfg & Hg).
    exfalso. apply (Hno g Hg). by rewrite <- Hfg.
Qed.

Lemma filter_ext_in {A} (P Q : A → Prop) `{!∀ x, Decision (P x), !∀ x, Decision (Q x)}
    (l : list A) :
  (∀ x, x ∈ l → (P x ↔ Q x)) → filter P l = filter Q l.
Proof.
  induction l as [|x l IH]; intros Hext; [done |].
  assert (filter P l = filter Q l) as IH'.
  { apply IH. intros y Hy. apply Hext. by right. }
  pose proof (Hext x (list_elem_of_here x l)) as Hx.
  rewrite !filter_cons, IH'.
  destruct (decide (P x)), (decide (Q x)); tauto || done.
Qed.

(** With distinct field names the lists of lines 51 and 59 are filters of
    the table fields. *)
Lemma key_fields_table (keys : list string) :
  NoDup (name <$> meta_fields model) →
  key_fields_of model keys = filter (λ f, name f ∈ keys) (_model_fields model).
Proof.
  intros Hnd. unfold key_fields_of.
  transitivity (filter (λ f, name f ∈ keys) (filter (λ f, ¬ is_auto f) (meta_fields model)));
    [| done].
  rewrite list_filter_filter.
  apply filter_ext_in. intros f Hf. split.
  - intros [Hk Hn]. split; [done |].
    by apply elem_of_model_fields, name_of_model_field.
  - intros [Hk Ha]. split; [done |].
    apply list_elem_of_fmap_2. by apply elem_of_model_fields.
Qed.

Lemma update_fields_table (keys skip : list string) :
  NoDup (name <$> meta_fields model) →
  update_fields_of model keys skip
  = filter (λ f, (name f ∉ keys) ∧ (name f ∉ skip)) (_model_fields model).
Proof.
  intros Hnd. unfold update_fields_of.
  transitivity (filter (λ f, (name f ∉ keys) ∧ (name f ∉ skip))
                  (filter (λ f, ¬ is_auto f) (meta_fields model))); [| done].
  rewrite list_filter_filter.
  apply filter_ext_in. intros f Hf. split.
  - intros (Hk & Hs & Hn). split; [done |].
    by apply elem_of_model_fields, name_of_model_field.
  - intros [[Hk Hs] Ha]. split_and!; [done.. |].
    apply list_elem_of_fmap_2. by apply elem_of_model_fields.
Qed.

End Fields.

Lemma fmap_inj_on {A B} (h : A → B) (l : list A) (x y : A) :
  NoDup (h <$> l) → x ∈ l → y ∈ l → h x = h y → x = y.
Proof.
  intros Hnd Hx Hy Hxy.
  apply list_elem_of_lookup in Hx as [i Hi]. apply list_elem_of_lookup in Hy as [j Hj].
  assert (i = j) as ->; [| congruence].
  eapply NoDup_lookup; [exact Hnd | |].
  - rewrite list_lookup_fmap, Hi. reflexivity.
  - rewrite list_lookup_fmap, Hj. cbn. by rewrite Hxy.
Qed.

(** ** The statement text and the text of the specification *)

Lemma squash_app (a b : string) : squash (a +:+ b) = squash a +:+ squash b.
Proof.
  induction a as [|c a IH]; [done |].
  change (squash (String c (a +:+ b)) = squash (String c a) +:+ squash b).
  cbn [squash]. rewrite IH. by destruct (is_blank c).
Qed.

Lemma squash_join (sep : string) (xs : list string) :
  squash (join sep xs) = join (squash sep) (squash <$> xs).
Proof.
  induction xs as [|x xs IH]; [done |].
  destruct xs as [|y ys]; [done |].
  change (squash (x +:+ sep +:+ join sep (y :: ys))
          = squash x +:+ squash sep +:+ join (squash sep) (squash <$> y :: ys)).
  by rewrite (squash_app x), (squash_app sep), IH.
Qed.

(** [squash] through every [+:+] that is written out in the goal. *)
Ltac squash_appends :=
  repeat match goal with
         | |- context [squash (?a +:+ ?b)] => rewrite (squash_app a b)
         end.

(** [squash] of the literal texts in the goal, computed. *)
Ltac squash_literals :=
  repeat match goal with
         | |- context [squash (String ?c ?l)] =>
             let v := eval vm_compute in (squash (String c l)) in
             change (squash (String c l)) with v
         end.

(** The text the template produces and the text of the specification are
    the same up to blanks and line breaks. *)
Lemma statement_text_as_specified {Obj} (con : Connection) (table : string)
    (all_fields update_fields key_fields : list Field) (objects : list Obj) :
  squash (upsert_sql con table all_fields update_fields key_fields objects)
  = squash (specified_text table (specified_columns con all_fields)
              (specified_values con all_fields objects)
              (specified_set_list con update_fields)
              (update_condition con key_fields) (insert_condition con key_fields)).
Proof.
  assert (squash (column_list con all_fields) = squash (specified_columns con all_fields))
    as Hcolumns.
  { unfold column_list, specified_columns. by rewrite (squash_join ","), (squash_join ", "). }
  assert (squash (set_list con update_fields) = squash (specified_set_list con update_fields))
    as Hset.
  { unfold set_list, specified_set_list. by rewrite (squash_join ","), (squash_join ", "). }
  assert (squash (values_list con all_fields objects)
          = squash (specified_values con all_fields objects)) as Hvalues.
  { unfold values_list, values_tuple, specified_values.
    rewrite (squash_join ","), (squash_join ", "), <- !list_fmap_compose. f_equal.
    apply list_fmap_ext. intros i o _. cbn [compose]. squash_appends.
    by rewrite (squash_join ","), (squash_join ", "). }
  unfold upsert_sql, statement_text, specified_text.
  squash_appends. rewrite Hcolumns, Hset, Hvalues.
  squash_literals. reflexivity.
Qed.

(** ** The statement, the precondition and the field lists *)

Section Claims.

Context {Obj : Type}.
Variable databases : list string.
Variable connections : string -> Connection.
Variable get_db_prep_save : Field -> Obj -> Connection -> pyval.
Variable engine : Engine.

Local Abbreviation run := (insert_or_update_many databases connections get_db_prep_save engine).

(** C2. Every statement the call executes is the statement of the
    specification's shape: [new_values] over all columns as a VALUES list,
    the CTE [upsert] with the UPDATE of the table aliased [m] from
    [new_values] aliased [nv] on equality of all key columns, a SET
    assignment for every update column and RETURNING m.*, then the INSERT of
    all columns from [new_values] where NOT EXISTS a row of [upsert] with
    the same key columns.  Character for character it is the template of
    line 101 with these parts filled in; up to blanks and line breaks it is
    the text the specification prints. *)
Theorem generated_statement_shape model objects keys skip_for_update using_ w alias sql params :
  EvExecute alias sql params ∈ calls (run model objects keys skip_for_update using_) w →
  sql = statement_text (meta_db_table model)
          (column_list (connections using_) (_model_fields model))
          (values_list (connections using_) (_model_fields model) objects)
          (set_list (connections using_)
             (update_fields_of model (keys_or_pk model keys) skip_for_update))
          (update_condition (connections using_) (key_fields_of model (keys_or_pk model keys)))
          (insert_condition (connections using_) (key_fields_of model (keys_or_pk model keys)))
  ∧ squash sql
    = squash (specified_text (meta_db_table model)
                (specified_columns (connections using_) (_model_fields model))
                (specified_values (connections using_) (_model_fields model) objects)
                (specified_set_list (connections using_)
                   (update_fields_of model (keys_or_pk model keys) skip_for_update))
                (update_condition (connections using_)
                   (key_fields_of model (keys_or_pk model keys)))
                (insert_condition (connections using_)
                   (key_fields_of model (keys_or_pk model keys)))).
Proof.
  intros Hex. apply executed_statement in Hex as (_ & _ & _ & -> & _).
  split; [reflexivity |]. apply statement_text_as_specified.
Qed.

(** C3. Without records the call returns at once, whatever the keys and
    the alias, and the world is as before.  On a connection that exists
    (the alias [using] is configured, so that line 40 gives a connection),
    the call raises the precondition error ([AssertionError]) exactly when
    there are records and no table field is named in the keys.  It does so
    with the message of line 56 and before any call on the database layer.
    (With records and an alias that is not configured, line 40 raises
    first: [unconfigured_alias_raises].) *)
Theorem precondition_failure model objects keys skip_for_update using_ w :
  (objects = [] → run model objects keys skip_for_update using_ w = (Ok tt, w))
  ∧ (using_ ∈ databases →
     ((∃ msg, (run model objects keys skip_for_update using_ w).1 = Raise (AssertionError msg))
      ↔ objects ≠ [] ∧ ∀ f, f ∈ _model_fields model → name f ∉ keys_or_pk model keys))
  ∧ (∀ msg, (run model objects keys skip_for_update using_ w).1 = Raise (AssertionError msg) →
       msg = "Empty key fields" ∧ (run model objects keys skip_for_update using_ w).2 = w).
Proof.
  destruct objects as [|o os].
  - rewrite insert_or_update_many_empty. split_and!; [done | | done].
    intros _. split; [by intros [? ?] | by intros [? _]].
  - rewrite insert_or_update_many_run. cbv zeta. rewrite <- key_fields_nil.
    case_decide as Hconf; [| split_and!; [done | done | done]].
    case_decide as Hk.
    + split_and!; [done | | by intros ? [= <-]].
      intros _. split; [done | by eexists].
    + destruct (statement_of _ _ _ _ _ _ _ _) as [rs|e] eqn:Hst.
      * split_and!; [done | | done].
        intros _. split; [by intros [? ?] | by intros [_ ?]].
      * apply upsert_statement_raises in Hst as [msg' ->].
        split_and!; [done | | done].
        intros _. split; [by intros [? ?] | by intros [_ ?]].
Qed.

(** C10. Without explicit keys the keys are the name of the primary key.
    When the primary key is an auto field, that name is the name of no
    table field, so the key fields are empty and a call with records, on an
    alias that is configured, fails the assertion of line 56. *)
Theorem default_keys_fail_on_auto_pk model o os keys skip_for_update using_ w :
  NoDup (name <$> meta_fields model) →
  meta_pk model ∈ meta_fields model →
  is_auto (meta_pk model) →
  keys = None ∨ keys = Some [] →
  using_ ∈ databases →
  keys_or_pk model keys = [name (meta_pk model)]
  ∧ key_fields_of model (keys_or_pk model keys) = []
  ∧ run model (o :: os) keys skip_for_update using_ w
    = (Raise (AssertionError "Empty key fields"), w).
Proof.
  intros Hnd Hpk Hauto Hkeys Hconf.
  assert (keys_or_pk model keys = [name (meta_pk model)]) as Hdef.
  { by destruct Hkeys as [-> | ->]. }
  assert (key_fields_of model (keys_or_pk model keys) = []) as Hnil.
  { rewrite Hdef. apply key_fields_nil. intros f Hf Hin.
    apply list_elem_of_singleton in Hin.
    apply elem_of_model_fields in Hf as [Hf Hna].
    assert (f = meta_pk model) as -> by (by eapply fmap_inj_on).
    done. }
  split_and!; [done.. |].
  rewrite insert_or_update_many_run. cbv zeta. by rewrite !decide_True.
Qed.


(** C8. With distinct field names and columns, the column of an auto field
    is in none of the three column lists the statement is written from (all
    columns, SET columns, key columns), and the parameters hold one value
    per table field and record, none for an auto field. *)
Theorem auto_columns_excluded model objects keys skip_for_update using_ w :
  NoDup (name <$> meta_fields model) →
  NoDup (column <$> meta_fields model) →
  (∀ f, f ∈ meta_fields model → is_auto f →
     (column f ∉ (column <$> _model_fields model))
     ∧ (column f ∉ (column <$> update_fields_of model (keys_or_pk model keys) skip_for_update))
     ∧ (column f ∉ (column <$> key_fields_of model (keys_or_pk model keys))))
  ∧ (∀ alias sql params,
       EvExecute alias sql params ∈ calls (run model objects keys skip_for_update using_) w →
       sql = upsert_sql (connections using_) (meta_db_table model) (_model_fields model)
               (update_fields_of model (keys_or_pk model keys) skip_for_update)
               (key_fields_of model (keys_or_pk model keys)) objects
       ∧ params = concat (parameter_grid get_db_prep_save (connections using_)
                            (_model_fields model) objects)).
Proof.
  intros Hnames Hcols. split.
  - intros f Hf Hauto.
    assert (∀ g, g ∈ _model_fields model → column f ≠ column g) as Hne.
    { intros g Hg Heq. apply elem_of_model_fields in Hg as [Hg Hna].
      assert (f = g) as -> by (by eapply fmap_inj_on). done. }
    split_and!; intros Hin; apply list_elem_of_fmap in Hin as (g & Hfg & Hg).
    + by apply (Hne g).
    + rewrite update_fields_table in Hg by done.
      apply list_elem_of_filter in Hg as [_ Hg]. by apply (Hne g).
    + rewrite key_fields_table in Hg by done.
      apply list_elem_of_filter in Hg as [_ Hg]. by apply (Hne g).
  - intros alias sql params Hex.
    apply executed_statement in Hex as (_ & _ & _ & -> & ->). done.
Qed.

End Claims.

(** ** Placeholders and parameters *)

Lemma length_concat_uniform {A} (k : nat) (ls : list (list A)) :
  Forall (λ l, length l = k) ls → length (concat ls) = length ls * k.
Proof.
  induction 1 as [|l ls Hl _ IH]; [done |].
  cbn. rewrite length_app, IH, Hl. done.
Qed.

Lemma lookup_concat_uniform {A} (k : nat) (ls : list (list A)) (i j : nat) (l : list A) (x : A) :
  Forall (λ l, length l = k) ls →
  ls !! i = Some l → l !! j = Some x → concat ls !! (i * k + j) = Some x.
Proof.
  intros Hall. revert i. induction Hall as [|l0 ls Hl0 _ IH]; intros i Hi Hj; [done |].
  destruct i as [|i]; cbn in *.
  - simplify_eq. by apply lookup_app_l_Some.
  - rewrite lookup_app_r by lia.
    replace (k + i * k + j - length l0) with (i * k + j) by lia. by apply IH.
Qed.

Lemma join_head (sep x : string) (xs : list string) :
  ∃ t, join sep (x :: xs) = x +:+ t.
Proof.
  destruct xs as [|y ys].
  - exists "". cbn. by rewrite append_nil_r.
  - by eexists.
Qed.

Section Placeholders.

Context {Obj : Type}.
Variable databases : list string.
Variable connections : string -> Connection.
Variable get_db_prep_save : Field -> Obj -> Connection -> pyval.
Variable engine : Engine.

Local Abbreviation run := (insert_or_update_many databases connections get_db_prep_save engine).

Lemma parameter_grid_uniform con all_fields (objects : list Obj) :
  Forall (λ l, length l = length all_fields)
    (parameter_grid get_db_prep_save con all_fields objects).
Proof.
  apply Forall_forall. intros l Hl. apply list_elem_of_fmap in Hl as (o & -> & _).
  by rewrite length_fmap.
Qed.

Lemma placeholder_grid_uniform con all_fields (objects : list Obj) :
  Forall (λ l, length l = length all_fields) (placeholder_grid con all_fields objects).
Proof.
  apply Forall_forall. intros l Hl. apply list_elem_of_fmap in Hl as (o & -> & _).
  by rewrite length_fmap.
Qed.

Lemma values_list_grid con all_fields (objects : list Obj) :
  values_list con all_fields objects
  = join "," ((λ r, "(" +:+ join "," r +:+ ")") <$> placeholder_grid con all_fields objects).
Proof. unfold values_list, placeholder_grid. by rewrite <- list_fmap_compose. Qed.

(** C5. The parameters handed to the cursor are the values of the records
    laid out record by record and, within a record, field by field; the
    VALUES list holds one placeholder per field and record in the same
    layout, so parameter number [i * fields + j] is the value of field [j]
    of record [i] and fills the placeholder of that field in tuple [i]. *)
Theorem parameters_match_placeholders model objects keys skip_for_update using_ w
    alias sql params :
  EvExecute alias sql params ∈ calls (run model objects keys skip_for_update using_) w →
  params = concat (parameter_grid get_db_prep_save (connections using_)
                     (_model_fields model) objects)
  ∧ sql = statement_text (meta_db_table model)
            (column_list (connections using_) (_model_fields model))
            (join "," ((λ r, "(" +:+ join "," r +:+ ")")
                       <$> placeholder_grid (connections using_) (_model_fields model) objects))
            (set_list (connections using_)
               (update_fields_of model (keys_or_pk model keys) skip_for_update))
            (update_condition (connections using_) (key_fields_of model (keys_or_pk model keys)))
            (insert_condition (connections using_) (key_fields_of model (keys_or_pk model keys)))
  ∧ length params
    = length (concat (placeholder_grid (connections using_) (_model_fields model) objects))
  ∧ length params = length objects * length (_model_fields model)
  ∧ ∀ i j o f, objects !! i = Some o → _model_fields model !! j = Some f →
      params !! (i * length (_model_fields model) + j)
      = Some (get_db_prep_save f o (connections using_))
      ∧ concat (placeholder_grid (connections using_) (_model_fields model) objects)
          !! (i * length (_model_fields model) + j)
        = Some ("%s::" +:+ db_type f (connections using_)).
Proof.
  intros Hex. apply executed_statement in Hex as (_ & _ & _ & -> & ->).
  set (con := connections using_). set (all_fields := _model_fields model).
  pose proof (parameter_grid_uniform con all_fields objects) as Hpar.
  pose proof (placeholder_grid_uniform con all_fields objects) as Hph.
  split_and!.
  - reflexivity.
  - unfold sql_of, upsert_sql. by rewrite values_list_grid.
  - unfold parameters_of, _prep_values. fold con all_fields.
    fold (parameter_grid get_db_prep_save con all_fields objects).
    rewrite (length_concat_uniform _ _ Hpar), (length_concat_uniform _ _ Hph).
    unfold parameter_grid, placeholder_grid. by rewrite !length_fmap.
  - unfold parameters_of, _prep_values. fold con all_fields.
    fold (parameter_grid get_db_prep_save con all_fields objects).
    rewrite (length_concat_uniform _ _ Hpar). unfold parameter_grid. by rewrite length_fmap.
  - intros i j o f Ho Hf. split.
    + unfold parameters_of, _prep_values. fold con all_fields.
      fold (parameter_grid get_db_prep_save con all_fields objects).
      eapply lookup_concat_uniform; [exact Hpar | |].
      * unfold parameter_grid. rewrite list_lookup_fmap, Ho. reflexivity.
      * rewrite list_lookup_fmap, Hf. reflexivity.
    + eapply lookup_concat_uniform; [exact Hph | |].
      * unfold placeholder_grid. rewrite list_lookup_fmap, Ho. reflexivity.
      * rewrite list_lookup_fmap, Hf. reflexivity.
Qed.

(** C6. In every tuple of the VALUES list, the first one and the others
    alike, the placeholder of every column is [%s::] followed by the
    database type of that column's field; the statement starts with the
    column list and then the cast placeholder of the first column of the
    first tuple. *)
Theorem every_placeholder_is_cast model objects keys skip_for_update using_ w
    alias sql params :
  EvExecute alias sql params ∈ calls (run model objects keys skip_for_update using_) w →
  sql = statement_text (meta_db_table model)
          (column_list (connections using_) (_model_fields model))
          (join "," ((λ r, "(" +:+ join "," r +:+ ")")
                     <$> placeholder_grid (connections using_) (_model_fields model) objects))
          (set_list (connections using_)
             (update_fields_of model (keys_or_pk model keys) skip_for_update))
          (update_condition (connections using_) (key_fields_of model (keys_or_pk model keys)))
          (insert_condition (connections using_) (key_fields_of model (keys_or_pk model keys)))
  ∧ length (placeholder_grid (connections using_) (_model_fields model) objects)
    = length objects
  ∧ (∀ i r, placeholder_grid (connections using_) (_model_fields model) objects !! i = Some r →
       length r = length (_model_fields model)
       ∧ ∀ j f, _model_fields model !! j = Some f →
           r !! j = Some ("%s::" +:+ db_type f (connections using_)))
  ∧ ∃ f1 fs rest, _model_fields model = f1 :: fs
      ∧ sql = "
        WITH new_values (" +:+ column_list (connections using_) (_model_fields model) +:+ ") AS (
          VALUES
            (%s::" +:+ db_type f1 (connections using_) +:+ rest.
Proof.
  intros Hex. apply executed_statement in Hex as (Hobj & Hkeys & _ & -> & _).
  set (con := connections using_). set (all_fields := _model_fields model).
  split_and!.
  - unfold sql_of, upsert_sql. by rewrite values_list_grid.
  - unfold placeholder_grid. by rewrite length_fmap.
  - intros i r Hr. unfold placeholder_grid in Hr.
    rewrite list_lookup_fmap in Hr. destruct (objects !! i); [| done].
    cbn in Hr. injection Hr as <-. split; [by rewrite length_fmap |].
    intros j f Hf. rewrite list_lookup_fmap, Hf. reflexivity.
  - destruct objects as [|o os]; [done |].
    destruct all_fields as [|f1 fs] eqn:Hall.
    { exfalso. apply Hkeys. apply key_fields_nil. intros f Hf.
      fold all_fields in Hf. rewrite Hall in Hf. by apply elem_of_nil in Hf. }
    exists f1, fs.
    unfold sql_of, upsert_sql, values_list, values_tuple. fold all_fields. rewrite Hall.
    rewrite !fmap_cons. fold con.
    set (T := "(" +:+ join "," (cast_placeholder con f1 :: (cast_placeholder con <$> fs))
              +:+ ")").
    destruct (join_head "," T ((λ _, T) <$> os)) as [t1 Ht1].
    rewrite Ht1. subst T.
    destruct (join_head "," (cast_placeholder con f1) (cast_placeholder con <$> fs))
      as [t2 ->].
    unfold cast_placeholder, statement_text.
    rewrite !append_assoc.
    eexists. split; [done |]. reflexivity.
Qed.

End Placeholders.

(** ** The commit after the statement *)

(** After a statement that the engine accepts the function makes exactly
    three calls: it opens a cursor on [connections[using]], executes the
    statement there, and calls [commit_unless_managed] on the default
    alias. *)
Lemma calls_of_successful_call {Obj} databases connections
    (get_db_prep_save : Field → Obj → Connection → pyval) engine
    model objects keys skip_for_update using_ w w' :
  objects ≠ [] →
  insert_or_update_many databases connections get_db_prep_save engine model objects keys
    skip_for_update using_ w
  = (Ok tt, w') →
  calls (insert_or_update_many databases connections get_db_prep_save engine model objects keys
           skip_for_update using_) w
  = [EvCursor using_;
     EvExecute using_ (sql_of connections model objects keys skip_for_update using_)
       (parameters_of connections get_db_prep_save model objects using_);
     EvCommitUnlessManaged DEFAULT_DB_ALIAS].
Proof.
  intros Hobj Hrun. rewrite insert_or_update_many_calls.
  destruct objects as [|o os]; [done |].
  rewrite insert_or_update_many_run in Hrun. cbv zeta in Hrun.
  case_decide; [| done]. case_decide; [done |].
  by destruct (statement_of _ _ _ _ _ _ _ _).
Qed.

(** C9. A call that writes through the alias [replica] executes its one
    statement on [replica] and then calls [commit_unless_managed] for the
    alias [default]: line 127 passes no [using]. *)
Theorem commit_is_on_default_alias :
  calls (insert_or_update_many Widgets.databases Widgets.connections
           Widgets.get_db_prep_save Widgets.engine Widgets.Widget
           [Widgets.a5] (Some ["sku"]) [] "replica") Widgets.empty_table
  = [EvCursor "replica";
     EvExecute "replica"
       (sql_of Widgets.connections Widgets.Widget [Widgets.a5] (Some ["sku"]) [] "replica")
       [PStr "A"; PInt 5; PStr "new"];
     EvCommitUnlessManaged "default"].
Proof. by vm_compute. Qed.

(** ** The theorems at the widgets model *)

Lemma generated_statement_shape_witness :
  EvExecute "default"
    (sql_of Widgets.connections Widgets.Widget [Widgets.a5; Widgets.b2] (Some ["sku"]) []
       "default")
    [PStr "A"; PInt 5; PStr "new"; PStr "B"; PInt 2; PStr ""]
  ∈ calls (insert_or_update_many Widgets.databases Widgets.connections
             Widgets.get_db_prep_save Widgets.engine Widgets.Widget
             [Widgets.a5; Widgets.b2] (Some ["sku"]) [] "default") Widgets.empty_table
  ∧ sql_of Widgets.connections Widgets.Widget [Widgets.a5; Widgets.b2] (Some ["sku"]) []
      "default"
    = statement_text "widgets"
        (column_list Widgets.postgresql [Widgets.sku; Widgets.qty; Widgets.note])
        (values_list Widgets.postgresql [Widgets.sku; Widgets.qty; Widgets.note]
           [Widgets.a5; Widgets.b2])
        (set_list Widgets.postgresql [Widgets.qty; Widgets.note])
        (update_condition Widgets.postgresql [Widgets.sku])
        (insert_condition Widgets.postgresql [Widgets.sku]).
Proof.
  assert (EvExecute "default"
    (sql_of Widgets.connections Widgets.Widget [Widgets.a5; Widgets.b2] (Some ["sku"]) []
       "default")
    [PStr "A"; PInt 5; PStr "new"; PStr "B"; PInt 2; PStr ""]
  ∈ calls (insert_or_update_many Widgets.databases Widgets.connections
             Widgets.get_db_prep_save Widgets.engine Widgets.Widget
             [Widgets.a5; Widgets.b2] (Some ["sku"]) [] "default") Widgets.empty_table) as Hex.
  { apply (bool_decide_unpack _). vm_compute. exact I. }
  split; [exact Hex |].
  exact (proj1 (generated_statement_shape Widgets.databases Widgets.connections
                  Widgets.get_db_prep_save Widgets.engine
                  Widgets.Widget [Widgets.a5; Widgets.b2] (Some ["sku"]) [] "default"
                  Widgets.empty_table _ _ _ Hex)).
Defined.

Ltac by_computation := apply (bool_decide_unpack _); vm_compute; exact I.

Lemma precondition_failure_witness :
  "default" ∈ Widgets.databases
  ∧ ((∃ msg, (insert_or_update_many Widgets.databases Widgets.connections
                Widgets.get_db_prep_save Widgets.engine Widgets.Widget [Widgets.a5]
                (Some ["bogus"]) [] "default" Widgets.one_row).1
             = Raise (AssertionError msg))
     ↔ [Widgets.a5] ≠ []
       ∧ ∀ f, f ∈ _model_fields Widgets.Widget →
              name f ∉ keys_or_pk Widgets.Widget (Some ["bogus"])).
Proof.
  assert ("default" ∈ Widgets.databases) as Hconf by by_computation.
  split; [exact Hconf |].
  exact (proj1 (proj2 (precondition_failure Widgets.databases Widgets.connections
                         Widgets.get_db_prep_save Widgets.engine Widgets.Widget [Widgets.a5]
                         (Some ["bogus"]) [] "default" Widgets.one_row)) Hconf).
Defined.

Lemma default_keys_fail_on_auto_pk_witness :
  NoDup (name <$> meta_fields Widgets.Widget)
  ∧ meta_pk Widgets.Widget ∈ meta_fields Widgets.Widget
  ∧ is_auto (meta_pk Widgets.Widget)
  ∧ "default" ∈ Widgets.databases
  ∧ insert_or_update_many Widgets.databases Widgets.connections
      Widgets.get_db_prep_save Widgets.engine
      Widgets.Widget [Widgets.a5] None [] "default" Widgets.one_row
    = (Raise (AssertionError "Empty key fields"), Widgets.one_row).
Proof.
  assert (NoDup (name <$> meta_fields Widgets.Widget)) as Hnd by by_computation.
  assert (meta_pk Widgets.Widget ∈ meta_fields Widgets.Widget) as Hpk by left.
  assert ("default" ∈ Widgets.databases) as Hconf by by_computation.
  split_and!; [exact Hnd | exact Hpk | exact I | exact Hconf |].
  exact (proj2 (proj2 (default_keys_fail_on_auto_pk Widgets.databases Widgets.connections
                        Widgets.get_db_prep_save Widgets.engine Widgets.Widget Widgets.a5 [] None []
           "default" Widgets.one_row Hnd Hpk I (or_introl eq_refl) Hconf))).
Defined.


Lemma auto_columns_excluded_witness :
  NoDup (name <$> meta_fields Widgets.Widget)
  ∧ NoDup (column <$> meta_fields Widgets.Widget)
  ∧ (column Widgets.id ∉ (column <$> _model_fields Widgets.Widget))
  ∧ (column Widgets.id
     ∉ (column <$> update_fields_of Widgets.Widget (keys_or_pk Widgets.Widget (Some ["sku"])) []))
  ∧ (column Widgets.id
     ∉ (column <$> key_fields_of Widgets.Widget (keys_or_pk Widgets.Widget (Some ["sku"])))).
Proof.
  assert (NoDup (name <$> meta_fields Widgets.Widget)) as Hnames by by_computation.
  assert (NoDup (column <$> meta_fields Widgets.Widget)) as Hcols by by_computation.
  split_and!; [exact Hnames | exact Hcols | ..];
    apply (proj1 (auto_columns_excluded Widgets.databases Widgets.connections
                    Widgets.get_db_prep_save Widgets.engine
                    Widgets.Widget [Widgets.a5] (Some ["sku"]) [] "default" Widgets.one_row
             Hnames Hcols) Widgets.id (list_elem_of_here _ _) I).
Defined.

Lemma parameters_match_placeholders_witness :
  EvExecute "default"
    (sql_of Widgets.connections Widgets.Widget [Widgets.a5; Widgets.b2] (Some ["sku"]) []
       "default")
    [PStr "A"; PInt 5; PStr "new"; PStr "B"; PInt 2; PStr ""]
  ∈ calls (insert_or_update_many Widgets.databases Widgets.connections
             Widgets.get_db_prep_save Widgets.engine Widgets.Widget
             [Widgets.a5; Widgets.b2] (Some ["sku"]) [] "default") Widgets.empty_table
  ∧ [PStr "A"; PInt 5; PStr "new"; PStr "B"; PInt 2; PStr ""]
    = concat (parameter_grid Widgets.get_db_prep_save (Widgets.connections "default")
                (_model_fields Widgets.Widget) [Widgets.a5; Widgets.b2]).
Proof.
  assert (EvExecute "default"
    (sql_of Widgets.connections Widgets.Widget [Widgets.a5; Widgets.b2] (Some ["sku"]) []
       "default")
    [PStr "A"; PInt 5; PStr "new"; PStr "B"; PInt 2; PStr ""]
  ∈ calls (insert_or_update_many Widgets.databases Widgets.connections
             Widgets.get_db_prep_save Widgets.engine Widgets.Widget
             [Widgets.a5; Widgets.b2] (Some ["sku"]) [] "default") Widgets.empty_table) as Hex
    by by_computation.
  split; [exact Hex |].
  exact (proj1 (parameters_match_placeholders Widgets.databases Widgets.connections
                  Widgets.get_db_prep_save Widgets.engine
                  Widgets.Widget [Widgets.a5; Widgets.b2] (Some ["sku"]) [] "default"
                  Widgets.empty_table _ _ _ Hex)).
Defined.

Lemma every_placeholder_is_cast_witness :
  EvExecute "default"
    (sql_of Widgets.connections Widgets.Widget [Widgets.a5; Widgets.b2] (Some ["sku"]) []
       "default")
    [PStr "A"; PInt 5; PStr "new"; PStr "B"; PInt 2; PStr ""]
  ∈ calls (insert_or_update_many Widgets.databases Widgets.connections
             Widgets.get_db_prep_save Widgets.engine Widgets.Widget
             [Widgets.a5; Widgets.b2] (Some ["sku"]) [] "default") Widgets.empty_table
  ∧ length (placeholder_grid (Widgets.connections "default") (_model_fields Widgets.Widget)
              [Widgets.a5; Widgets.b2]) = 2.
Proof.
  assert (EvExecute "default"
    (sql_of Widgets.connections Widgets.Widget [Widgets.a5; Widgets.b2] (Some ["sku"]) []
       "default")
    [PStr "A"; PInt 5; PStr "new"; PStr "B"; PInt 2; PStr ""]
  ∈ calls (insert_or_update_many Widgets.databases Widgets.connections
             Widgets.get_db_prep_save Widgets.engine Widgets.Widget
             [Widgets.a5; Widgets.b2] (Some ["sku"]) [] "default") Widgets.empty_table) as Hex
    by by_computation.
  split; [exact Hex |].
  exact (proj1 (proj2 (every_placeholder_is_cast Widgets.databases Widgets.connections
                         Widgets.get_db_prep_save Widgets.engine
                         Widgets.Widget [Widgets.a5; Widgets.b2] (Some ["sku"]) [] "default"
                         Widgets.empty_table _ _ _ Hex))).
Defined.

(** ** The statement as an operation on the table *)

Lemma lookup_set_cols (ucols : list string) (nv m : row) (c : string) :
  set_cols ucols nv m !! c = if decide (c ∈ ucols) then Some (cell nv c) else m !! c.
Proof.
  unfold set_cols. induction ucols as [|u us IH]; [done |].
  cbn [foldr]. destruct (decide (c = u)) as [->|Hne].
  - rewrite lookup_insert_eq. rewrite decide_True; [done | left].
  - rewrite lookup_insert_ne by done. rewrite IH.
    destruct (decide (c ∈ us)) as [Hin|Hnin].
    + rewrite decide_True; [done | by right].
    + rewrite decide_False; [done |]. intros [?|?]%elem_of_cons; done.
Qed.

Lemma cell_set_cols (ucols : list string) (nv m : row) (c : string) :
  cell (set_cols ucols nv m) c = if decide (c ∈ ucols) then cell nv c else cell m c.
Proof. unfold cell at 1. rewrite lookup_set_cols. by case_decide. Qed.

Lemma set_cols_idemp (ucols : list string) (nv m : row) :
  set_cols ucols nv (set_cols ucols nv m) = set_cols ucols nv m.
Proof. apply map_eq. intros c. rewrite !lookup_set_cols. by case_decide. Qed.

Lemma set_cols_self (ucols : list string) (nv : row) :
  (∀ c, c ∈ ucols → is_Some (nv !! c)) → set_cols ucols nv nv = nv.
Proof.
  intros Hfull. apply map_eq. intros c. rewrite lookup_set_cols.
  case_decide as Hc; [| done].
  destruct (Hfull c Hc) as [v Hv]. unfold cell. by rewrite Hv.
Qed.

Lemma sql_eq_sym (a b : pyval) : sql_eq a b → sql_eq b a.
Proof. intros [Ha ->]. by split. Qed.

Lemma sql_eq_trans (a b c : pyval) : sql_eq a b → sql_eq b c → sql_eq a c.
Proof. intros [Ha ->] [_ ->]. by split. Qed.

Lemma keys_agree_sym (kcols : list string) (a b : row) :
  keys_agree kcols a b → keys_agree kcols b a.
Proof.
  unfold keys_agree. intros H. eapply Forall_impl; [exact H |].
  intros c. apply sql_eq_sym.
Qed.

Lemma keys_agree_trans (kcols : list string) (a b c : row) :
  keys_agree kcols a b → keys_agree kcols b c → keys_agree kcols a c.
Proof.
  unfold keys_agree. rewrite !Forall_forall. intros Hab Hbc k Hk.
  eapply sql_eq_trans; eauto.
Qed.

Lemma keys_agree_cell (kcols : list string) (a b : row) (c : string) :
  keys_agree kcols a b → c ∈ kcols → cell a c = cell b c.
Proof.
  unfold keys_agree. rewrite Forall_forall. intros H Hc. by destruct (H c Hc).
Qed.

Lemma filter_fmap {A B} (f : A → B) (P : B → Prop) `{!∀ y, Decision (P y)} (l : list A) :
  filter P (f <$> l) = f <$> filter (λ x, P (f x)) l.
Proof.
  induction l as [|x l IH]; [done |].
  rewrite fmap_cons, !filter_cons, IH. by destruct (decide (P (f x))).
Qed.

Lemma filter_nil_iff {A} (P : A → Prop) `{!∀ x, Decision (P x)} (l : list A) :
  filter P l = [] ↔ ∀ x, x ∈ l → ¬ P x.
Proof.
  split.
  - intros Hnil x Hx HP. by eapply filter_nil_not_elem_of.
  - intros Hno. induction l as [|x l IH]; [done |].
    rewrite filter_cons_False by (apply Hno; left).
    apply IH. intros y Hy. apply Hno. by right.
Qed.

(** A predicate that holds at one position of a list at most selects just
    the element it holds for. *)
Lemma filter_unique {A} (P : A → Prop) `{!∀ x, Decision (P x)} (l : list A) (x : A) :
  (∀ i j a b, l !! i = Some a → l !! j = Some b → P a → P b → i = j) →
  x ∈ l → P x → filter P l = [x].
Proof.
  induction l as [|a l IH]; intros Huniq Hx HP; [by apply elem_of_nil in Hx |].
  destruct (decide (P a)) as [Ha|Ha].
  - rewrite filter_cons_True by done.
    assert (filter P l = []) as ->.
    { apply filter_nil_iff. intros b Hb HPb.
      apply list_elem_of_lookup in Hb as [j Hj].
      by specialize (Huniq 0 (S j) a b eq_refl Hj Ha HPb). }
    apply elem_of_cons in Hx as [->|Hx]; [done |].
    apply list_elem_of_lookup in Hx as [j Hj].
    by specialize (Huniq 0 (S j) a x eq_refl Hj Ha HP).
  - rewrite filter_cons_False by done.
    apply elem_of_cons in Hx as [->|Hx]; [done |].
    apply IH; [| done..].
    intros i j b c Hi Hj Hb Hc.
    by specialize (Huniq (S i) (S j) b c Hi Hj Hb Hc) as [= ->].
Qed.

Lemma fmap_id_on {A} (f : A → A) (l : list A) :
  (∀ x, x ∈ l → f x = x) → f <$> l = l.
Proof.
  intros Hf. induction l as [|x l IH]; [done |].
  rewrite fmap_cons, Hf by left. f_equal. apply IH. intros y Hy. apply Hf. by right.
Qed.

Lemma reshape_concat {A} (k : nat) (ls : list (list A)) :
  Forall (λ l, length l = k) ls → reshape (replicate (length ls) k) (concat ls) = ls.
Proof.
  induction 1 as [|l ls Hl _ IH]; [done |].
  cbn. rewrite take_app_length', drop_app_length' by done. by rewrite IH.
Qed.

Lemma zip_fmap_same {A B C} (f : A → B) (g : A → C) (l : list A) :
  zip (f <$> l) (g <$> l) = (λ x, (f x, g x)) <$> l.
Proof. induction l as [|x l IH]; [done |]. cbn. by rewrite IH. Qed.

Lemma zip_with_fmap_same {A B C D} (h : B → C → D) (f : A → B) (g : A → C) (l : list A) :
  zip_with h (f <$> l) (g <$> l) = (λ x, h (f x) (g x)) <$> l.
Proof. induction l as [|x l IH]; [done |]. cbn. by rewrite IH. Qed.

Lemma cell_inserted_row (engine : Engine) (tbl : list row) (k : nat) (nv : row) (c : string) :
  is_Some (nv !! c) → inserted_row engine tbl k nv !! c = nv !! c.
Proof.
  intros [v Hv]. unfold inserted_row. rewrite Hv. by apply lookup_union_Some_l.
Qed.

Lemma cell_not_null (r : row) (c : string) : cell r c ≠ PNone → is_Some (r !! c).
Proof. unfold cell. destruct (r !! c); [by eexists | done]. Qed.

Lemma imap_as_fmap {A B} (f : nat → A → B) (l : list A) :
  imap f l = (λ p, f p.1 p.2) <$> imap pair l.
Proof. rewrite fmap_imap. by apply imap_ext. Qed.

Lemma elem_of_imap_pair {A} (l : list A) (p : nat * A) :
  p ∈ imap pair l ↔ l !! p.1 = Some p.2.
Proof.
  rewrite list_elem_of_lookup. split.
  - intros [i Hi]. rewrite list_lookup_imap in Hi.
    destruct (l !! i) as [x|] eqn:Hx; [| done]. cbn in Hi. by simplify_eq.
  - intros Hp. exists p.1. rewrite list_lookup_imap, Hp. by destruct p.
Qed.

Lemma lookup_imap_pair {A} (l : list A) (i : nat) (p : nat * A) :
  imap pair l !! i = Some p → p.1 = i ∧ l !! i = Some p.2.
Proof.
  rewrite list_lookup_imap. destruct (l !! i) as [x|]; [| done].
  cbn. by intros [= <-].
Qed.

Lemma NoDup_imap_pair {A} (l : list A) : NoDup (imap pair l).
Proof.
  apply NoDup_alt. intros i j p Hi Hj.
  apply lookup_imap_pair in Hi as [<- _]. by apply lookup_imap_pair in Hj as [<- _].
Qed.

Lemma insertion_order_Permutation (engine : Engine) (tbl : list row) (ps : list (nat * row)) :
  insertion_order engine tbl ps ≡ₚ ps.
Proof. apply merge_sort_Permutation. Qed.

Lemma length_to_insert (engine : Engine) (kcols : list string) (tbl ups nvs : list row) :
  length (to_insert engine kcols tbl ups nvs) ≤ length nvs.
Proof.
  unfold to_insert. rewrite length_imap, insertion_order_Permutation.
  etrans; [apply length_filter |]. by rewrite length_imap.
Qed.

Section Relational.

Variable engine : Engine.
Variables kcols ucols : list string.
Variable nvs : list row.

(** No key column is assigned by SET. *)
Hypothesis disjoint_cols : ∀ c, c ∈ kcols → c ∉ ucols.
(** The key values of the new rows are not NULL. *)
Hypothesis nvs_keyed : ∀ nv, nv ∈ nvs → keys_agree kcols nv nv.
(** The new rows have a value for every SET column. *)
Hypothesis nvs_full : ∀ nv c, nv ∈ nvs → c ∈ ucols → is_Some (nv !! c).
(** No two new rows have the same key. *)
Hypothesis nvs_unique :
  ∀ i j x y, nvs !! i = Some x → nvs !! j = Some y → keys_agree kcols x y → i = j.

Local Abbreviation upd := (update_row kcols ucols nvs).
Local Abbreviation ups := (returning kcols ucols nvs).

Lemma keys_agree_set_cols (nv m x : row) :
  keys_agree kcols (set_cols ucols nv m) x ↔ keys_agree kcols m x.
Proof.
  unfold keys_agree. rewrite !Forall_forall.
  split; intros H c Hc; specialize (H c Hc).
  - rewrite cell_set_cols, decide_False in H by (by apply disjoint_cols). done.
  - rewrite cell_set_cols, decide_False by (by apply disjoint_cols). done.
Qed.

Lemma update_row_agree (m x : row) : keys_agree kcols (upd m) x ↔ keys_agree kcols m x.
Proof.
  unfold update_row. destruct (last _); [apply keys_agree_set_cols | done].
Qed.

Lemma update_row_idemp (m : row) : upd (upd m) = upd m.
Proof.
  assert (filter (keys_agree kcols (upd m)) nvs = filter (keys_agree kcols m) nvs) as Hf.
  { apply list_filter_iff. intros x. apply update_row_agree. }
  unfold update_row at 1. rewrite Hf.
  unfold update_row. destruct (last (filter (keys_agree kcols m) nvs)); [| done].
  apply set_cols_idemp.
Qed.

Lemma matching_unique (m : row) (i j : nat) (x y : row) :
  nvs !! i = Some x → nvs !! j = Some y →
  keys_agree kcols m x → keys_agree kcols m y → i = j.
Proof.
  intros Hi Hj Hx Hy. eapply nvs_unique; [exact Hi | exact Hj |].
  eapply keys_agree_trans; [apply keys_agree_sym, Hx | exact Hy].
Qed.

(** A stored row with the key of a new row is updated from that row. *)
Lemma update_row_matched (m r : row) :
  r ∈ nvs → keys_agree kcols m r → upd m = set_cols ucols r m.
Proof.
  intros Hr Hm. unfold update_row.
  rewrite (filter_unique _ nvs r); [done | | done..].
  intros i j a b. apply matching_unique.
Qed.

Lemma update_row_unmatched (m : row) :
  (∀ r, r ∈ nvs → ¬ keys_agree kcols m r) → upd m = m.
Proof.
  intros Hno. unfold update_row.
  assert (filter (keys_agree kcols m) nvs = []) as -> by (by apply filter_nil_iff).
  done.
Qed.

(** A new row as it was inserted has the key of the new row, and an update
    from that row leaves it as it is. *)
Lemma inserted_row_agree (tbl : list row) (k : nat) (r x : row) :
  r ∈ nvs →
  keys_agree kcols (inserted_row engine tbl k r) x ↔ keys_agree kcols r x.
Proof.
  intros Hr. pose proof (nvs_keyed r Hr) as Hkeyed.
  unfold keys_agree in Hkeyed |- *. rewrite Forall_forall in Hkeyed. rewrite !Forall_forall.
  assert (∀ c, c ∈ kcols → cell (inserted_row engine tbl k r) c = cell r c) as Hcell.
  { intros c Hc. unfold cell. rewrite cell_inserted_row; [done |].
    apply cell_not_null. by destruct (Hkeyed c Hc). }
  split; intros H c Hc; specialize (H c Hc).
  - by rewrite Hcell in H.
  - by rewrite Hcell.
Qed.

Lemma update_row_inserted (tbl : list row) (k : nat) (r : row) :
  r ∈ nvs → upd (inserted_row engine tbl k r) = inserted_row engine tbl k r.
Proof.
  intros Hr. rewrite (update_row_matched _ r); [| done |].
  - apply map_eq. intros c. rewrite lookup_set_cols. case_decide as Hc; [| done].
    destruct (nvs_full r c Hr Hc) as [v Hv].
    rewrite cell_inserted_row by (by eexists). unfold cell. by rewrite Hv.
  - apply inserted_row_agree; [done |]. by apply nvs_keyed.
Qed.

Lemma elem_of_returning (tbl : list row) (up : row) :
  up ∈ ups tbl ↔ ∃ m, up = upd m ∧ m ∈ tbl ∧ Exists (keys_agree kcols m) nvs.
Proof.
  unfold returning. rewrite list_elem_of_fmap. split.
  - intros (m & -> & Hm). apply list_elem_of_filter in Hm as [Hex Hm]. by exists m.
  - intros (m & -> & Hm & Hex). exists m. split; [done |]. by apply list_elem_of_filter.
Qed.

(** The rows the statement adds, with their places in the engine's order:
    the new rows that no returned row matches. *)
Lemma lookup_to_insert (tbl returned : list row) (k : nat) (r' : row) :
  to_insert engine kcols tbl returned nvs !! k = Some r' ↔
  ∃ i r, r' = inserted_row engine tbl k r
       ∧ insertion_order engine tbl
           (filter (λ p, ¬ Exists (λ up, keys_agree kcols up p.2) returned) (imap pair nvs))
         !! k = Some (i, r).
Proof.
  unfold to_insert. rewrite list_lookup_imap. split.
  - destruct (insertion_order _ _ _ !! k) as [[i r]|]; [| done].
    cbn. intros [= <-]. by exists i, r.
  - intros (i & r & -> & ->). done.
Qed.

Lemma elem_of_insertion_order (tbl returned : list row) (i : nat) (r : row) :
  (i, r) ∈ insertion_order engine tbl
             (filter (λ p, ¬ Exists (λ up, keys_agree kcols up p.2) returned) (imap pair nvs))
  ↔ nvs !! i = Some r ∧ ¬ Exists (λ up, keys_agree kcols up r) returned.
Proof.
  rewrite insertion_order_Permutation, list_elem_of_filter, elem_of_imap_pair. cbn. tauto.
Qed.

Lemma elem_of_to_insert (tbl returned : list row) (r' : row) :
  r' ∈ to_insert engine kcols tbl returned nvs →
  ∃ k r, r' = inserted_row engine tbl k r ∧ r ∈ nvs
         ∧ ¬ Exists (λ up, keys_agree kcols up r) returned.
Proof.
  intros [k Hk]%list_elem_of_lookup.
  apply lookup_to_insert in Hk as (i & r & -> & Hp).
  apply list_elem_of_lookup_2, elem_of_insertion_order in Hp as [Hi Hnone].
  exists k, r. split_and!; [done | by eapply list_elem_of_lookup_2 | done].
Qed.

Lemma to_insert_unmatched (tbl returned : list row) (i : nat) (r : row) :
  nvs !! i = Some r → ¬ Exists (λ up, keys_agree kcols up r) returned →
  ∃ k, to_insert engine kcols tbl returned nvs !! k = Some (inserted_row engine tbl k r).
Proof.
  intros Hi Hnone.
  assert ((i, r) ∈ insertion_order engine tbl
            (filter (λ p, ¬ Exists (λ up, keys_agree kcols up p.2) returned)
               (imap pair nvs))) as [k Hk]%list_elem_of_lookup
    by (by apply elem_of_insertion_order).
  exists k. apply lookup_to_insert. by exists i, r.
Qed.

Lemma to_insert_nil (tbl returned : list row) :
  (∀ r, r ∈ nvs → Exists (λ up, keys_agree kcols up r) returned) →
  to_insert engine kcols tbl returned nvs = [].
Proof.
  intros Hall. unfold to_insert.
  assert (filter (λ p, ¬ Exists (λ up, keys_agree kcols up p.2) returned) (imap pair nvs) = [])
    as ->; [| done].
  apply filter_nil_iff. intros [i r] Hp Hnone.
  apply elem_of_imap_pair, list_elem_of_lookup_2 in Hp. by apply Hnone, Hall.
Qed.

(** Running the statement a second time changes nothing. *)
Lemma upsert_twice (tbl : list row) :
  let once := (upd <$> tbl) ++ to_insert engine kcols tbl (ups tbl) nvs in
  (upd <$> once) ++ to_insert engine kcols once (ups once) nvs = once.
Proof.
  intros once.
  assert (upd <$> once = once) as ->.
  { unfold once. rewrite fmap_app. f_equal.
    - rewrite <- list_fmap_compose. apply list_fmap_ext. intros i m _. apply update_row_idemp.
    - apply fmap_id_on. intros r' Hr'.
      apply elem_of_to_insert in Hr' as (k & r & -> & Hr & _).
      by apply update_row_inserted. }
  rewrite to_insert_nil; [by rewrite app_nil_r |].
  intros r Hr.
  destruct (decide (Exists (λ up, keys_agree kcols up r) (ups tbl))) as [Hup|Hup].
  - apply Exists_exists in Hup as (up & Hup & Hagree).
    apply Exists_exists. exists up. split; [| done].
    apply elem_of_returning in Hup as (m & -> & Hm & Hex).
    apply elem_of_returning. exists (upd m). split_and!.
    + by rewrite update_row_idemp.
    + unfold once. apply elem_of_app. left. by apply list_elem_of_fmap_2.
    + apply Exists_exists. by exists r.
  - pose proof Hr as [i Hi]%list_elem_of_lookup.
    destruct (to_insert_unmatched tbl (ups tbl) i r Hi Hup) as [k Hk].
    set (r' := inserted_row engine tbl k r) in *.
    assert (keys_agree kcols r' r) as Hagree
      by (apply inserted_row_agree; [done | by apply nvs_keyed]).
    apply Exists_exists. exists r'. split; [| done].
    apply elem_of_returning. exists r'. split_and!.
    + unfold r'. by rewrite update_row_inserted.
    + unfold once. apply elem_of_app. right. by eapply list_elem_of_lookup_2.
    + apply Exists_exists. by exists r.
Qed.

(** After the statement, exactly one row has the key of a new row [r]: the
    stored row that had it, updated from [r], or else [r] as it was
    inserted. *)
Lemma upsert_row_of_record (tbl : list row) (r : row) :
  r ∈ nvs →
  length (filter (λ m, keys_agree kcols m r) tbl) ≤ 1 →
  ∃ k, filter (λ m, keys_agree kcols m r)
         ((upd <$> tbl) ++ to_insert engine kcols tbl (ups tbl) nvs)
       = match filter (λ m, keys_agree kcols m r) tbl with
         | [] => [inserted_row engine tbl k r]
         | m0 :: _ => [set_cols ucols r m0]
         end.
Proof.
  intros Hr Hone. pose proof Hr as [i Hi]%list_elem_of_lookup.
  rewrite filter_app, filter_fmap.
  rewrite (list_filter_iff (λ m, keys_agree kcols (upd m) r) (λ m, keys_agree kcols m r))
    by (intros m; apply update_row_agree).
  assert (∀ k r', to_insert engine kcols tbl (ups tbl) nvs !! k = Some r' →
                  keys_agree kcols r' r → r' = inserted_row engine tbl k r
                  ∧ insertion_order engine tbl
                      (filter (λ p, ¬ Exists (λ up, keys_agree kcols up p.2) (ups tbl))
                         (imap pair nvs)) !! k = Some (i, r)) as Hsame.
  { intros k r' Hk Hagree. apply lookup_to_insert in Hk as (j & x & -> & Hp).
    pose proof Hp as [Hj _]%list_elem_of_lookup_2%elem_of_insertion_order.
    apply inserted_row_agree in Hagree; [| by eapply list_elem_of_lookup_2].
    assert (j = i) as -> by (by eapply nvs_unique).
    assert (x = r) as -> by congruence. done. }
  destruct (filter (λ m, keys_agree kcols m r) tbl) as [|m0 [|m1 rest]] eqn:Hstored.
  - assert (¬ Exists (λ up, keys_agree kcols up r) (ups tbl)) as Hnone.
    { intros Hup. apply Exists_exists in Hup as (up & Hup & Hagree).
      apply elem_of_returning in Hup as (m & -> & Hm & _).
      apply (proj1 (update_row_agree _ _)) in Hagree.
      assert (m ∈ filter (λ m, keys_agree kcols m r) tbl) as Hin
        by (by apply list_elem_of_filter).
      rewrite Hstored in Hin. by apply elem_of_nil in Hin. }
    destruct (to_insert_unmatched tbl (ups tbl) i r Hi Hnone) as [k Hk].
    exists k. cbn [app].
    apply filter_unique; [| by eapply list_elem_of_lookup_2 |].
    + intros a b x y Ha Hb Hx Hy.
      destruct (Hsame a x Ha Hx) as [_ Ha']. destruct (Hsame b y Hb Hy) as [_ Hb'].
      eapply NoDup_lookup; [| exact Ha' | exact Hb'].
      unfold insertion_order. rewrite merge_sort_Permutation.
      apply NoDup_filter, NoDup_imap_pair.
    + apply inserted_row_agree; [done | by apply nvs_keyed].
  - exists 0.
    assert (m0 ∈ filter (λ m, keys_agree kcols m r) tbl) as Hm0 by (rewrite Hstored; left).
    apply list_elem_of_filter in Hm0 as [Hagree Hm0].
    cbn [fmap list_fmap]. rewrite (update_row_matched m0 r) by done.
    assert (filter (λ m, keys_agree kcols m r) (to_insert engine kcols tbl (ups tbl) nvs) = [])
      as ->; [| done].
    apply filter_nil_iff. intros r' Hr' Hagree'.
    apply elem_of_to_insert in Hr' as (k & x & -> & Hx & Hnone).
    apply inserted_row_agree in Hagree'; [| done].
    apply Hnone, Exists_exists. exists (upd m0). split.
    + apply elem_of_returning. exists m0. split_and!; [done.. |].
      apply Exists_exists. by exists r.
    + apply update_row_agree.
      eapply keys_agree_trans; [exact Hagree | by apply keys_agree_sym].
  - cbn in Hone. lia.
Qed.

End Relational.

(** ** The statement of a call on the table *)

Section Upsert.

Context {Obj : Type}.
Variable databases : list string.
Variable connections : string -> Connection.
Variable get_db_prep_save : Field -> Obj -> Connection -> pyval.
Variable engine : Engine.
Variable model : Model.
Variable keys : option (list string).
Variable skip_for_update : list string.
Variable using_ : string.

Local Abbreviation con := (connections using_).
Local Abbreviation all_fields := (_model_fields model).
Local Abbreviation key_fields := (key_fields_of model (keys_or_pk model keys)).
Local Abbreviation update_fields :=
  (update_fields_of model (keys_or_pk model keys) skip_for_update).
Local Abbreviation record := (record_row engine get_db_prep_save con all_fields).

Hypothesis distinct_names : NoDup (name <$> meta_fields model).
Hypothesis distinct_columns : NoDup (column <$> meta_fields model).

Lemma key_fields_subseteq f : f ∈ key_fields → f ∈ all_fields.
Proof. rewrite key_fields_table by done. by intros [_ ?]%list_elem_of_filter. Qed.

Lemma update_fields_subseteq f : f ∈ update_fields → f ∈ all_fields.
Proof. rewrite update_fields_table by done. by intros [_ ?]%list_elem_of_filter. Qed.

Lemma all_columns_distinct : NoDup (column <$> all_fields).
Proof.
  eapply sublist_NoDup; [exact distinct_columns |].
  apply (fmap_sublist column). unfold _model_fields. apply sublist_filter.
Qed.

Lemma key_update_columns_disjoint c :
  c ∈ (column <$> key_fields) → c ∉ (column <$> update_fields).
Proof.
  intros (f & -> & Hf)%list_elem_of_fmap (g & Hfg & Hg)%list_elem_of_fmap.
  apply elem_of_key_fields in Hf as (Hf & Hk & _).
  apply elem_of_update_fields in Hg as (Hg & Hnk & _).
  assert (f = g) as -> by (by eapply fmap_inj_on). done.
Qed.

Lemma lookup_record o f :
  f ∈ all_fields →
  record o !! column f = Some (sql_cast engine (db_type f con) (get_db_prep_save f o con)).
Proof.
  intros Hf. unfold record_row. rewrite zip_fmap_same.
  apply elem_of_list_to_map_1.
  - rewrite <- list_fmap_compose. apply all_columns_distinct.
  - apply list_elem_of_fmap. by exists f.
Qed.

Lemma cell_record o f :
  f ∈ all_fields →
  cell (record o) (column f) = sql_cast engine (db_type f con) (get_db_prep_save f o con).
Proof. intros Hf. unfold cell. by rewrite lookup_record. Qed.

Lemma new_values_records (objects : list Obj) :
  new_values engine (column <$> all_fields) ((λ f, db_type f con) <$> all_fields)
    (length objects) (parameters_of connections get_db_prep_save model objects using_)
  = record <$> objects.
Proof.
  unfold new_values, parameters_of, _prep_values.
  fold (parameter_grid get_db_prep_save con all_fields objects).
  replace (length objects)
    with (length (parameter_grid get_db_prep_save con all_fields objects))
    by (unfold parameter_grid; by rewrite length_fmap).
  rewrite length_fmap, reshape_concat by apply parameter_grid_uniform.
  unfold parameter_grid. rewrite <- list_fmap_compose.
  apply list_fmap_ext. intros i o _. cbn. unfold record_row.
  by rewrite zip_with_fmap_same.
Qed.

(** The records agree on the key columns exactly when their key tuples, as
    the statement casts them, are equal and hold no NULL. *)
Lemma keys_agree_records o o' :
  keys_agree (column <$> key_fields) (record o) (record o') →
  cast_key_tuple engine get_db_prep_save con key_fields o
  = cast_key_tuple engine get_db_prep_save con key_fields o'.
Proof.
  intros Hagree. unfold cast_key_tuple. apply list_fmap_ext. intros i f Hf.
  apply list_elem_of_lookup_2 in Hf.
  rewrite <- !cell_record by (by apply key_fields_subseteq).
  eapply keys_agree_cell; [exact Hagree |]. by apply list_elem_of_fmap_2.
Qed.

Lemma keys_agree_record_refl o :
  (∀ f, f ∈ key_fields → sql_cast engine (db_type f con) (get_db_prep_save f o con) ≠ PNone) →
  keys_agree (column <$> key_fields) (record o) (record o).
Proof.
  intros Hnn. unfold keys_agree. apply Forall_forall.
  intros c (f & -> & Hf)%list_elem_of_fmap. split; [| done].
  rewrite cell_record by (by apply key_fields_subseteq). by apply Hnn.
Qed.

End Upsert.

(** The call reads the objects only through the values prepared for the
    table fields of the batch. *)
Lemma insert_or_update_many_ext {Obj} (databases : list string)
    (connections : string → Connection) (prep prep' : Field → Obj → Connection → pyval)
    (engine : Engine) model (objects : list Obj) keys skip_for_update using_ w :
  (∀ o f, o ∈ objects → f ∈ _model_fields model →
     prep' f o (connections using_) = prep f o (connections using_)) →
  insert_or_update_many databases connections prep' engine model objects keys
    skip_for_update using_ w
  = insert_or_update_many databases connections prep engine model objects keys
      skip_for_update using_ w.
Proof.
  intros Hsame. destruct objects as [|o os]; [done |].
  rewrite !insert_or_update_many_run. cbv zeta.
  assert (parameters_of connections prep' model (o :: os) using_
          = parameters_of connections prep model (o :: os) using_) as Hparams.
  { unfold parameters_of, _prep_values. f_equal.
    apply list_fmap_ext. intros i x Hx. apply list_fmap_ext. intros j f Hf.
    apply Hsame; by eapply list_elem_of_lookup_2. }
  unfold statement_of. by rewrite Hparams.
Qed.

Section Table.

Context {Obj : Type}.
Variable databases : list string.
Variable connections : string -> Connection.
Variable get_db_prep_save : Field -> Obj -> Connection -> pyval.
Variable engine : Engine.

Local Abbreviation run := (insert_or_update_many databases connections get_db_prep_save engine).
Local Abbreviation statement := (statement_of connections get_db_prep_save engine).
Local Abbreviation record := (record_row engine get_db_prep_save).
Local Abbreviation key_of := (cast_key_tuple engine get_db_prep_save).

(** The table after a call: what the statement makes of it, or the table
    as it was when no statement ran or the engine rejected it. *)
Lemma rows_after_call model objects keys skip_for_update using_ w :
  rows (run model objects keys skip_for_update using_ w).2
  = match objects with
    | [] => rows w
    | _ :: _ =>
        if decide (using_ ∈ databases) then
          if decide (key_fields_of model (keys_or_pk model keys) = []) then rows w
          else match statement model objects keys skip_for_update using_ (rows w) with
               | Ok rs => rs
               | Raise _ => rows w
               end
        else rows w
    end.
Proof.
  destruct objects as [|o os]; [done |].
  rewrite insert_or_update_many_run. cbv zeta.
  case_decide; [| done].
  case_decide; [done |]. by destruct (statement _ _ _ _ _ _).
Qed.

Lemma statement_unfold model objects keys skip_for_update using_ tbl :
  NoDup (name <$> meta_fields model) →
  NoDup (column <$> meta_fields model) →
  let kcols := column <$> key_fields_of model (keys_or_pk model keys) in
  let ucols := column <$> update_fields_of model (keys_or_pk model keys) skip_for_update in
  let nvs := record (connections using_) (_model_fields model) <$> objects in
  statement model objects keys skip_for_update using_ tbl
  = match ucols, kcols with
    | [], _ | _, [] => Raise (DatabaseError "syntax error")
    | _ :: _, _ :: _ =>
        match rejects engine (parameters_of connections get_db_prep_save model objects using_)
                tbl with
        | Some msg => Raise (DatabaseError msg)
        | None =>
            Ok ((update_row kcols ucols nvs <$> tbl)
                ++ to_insert engine kcols tbl (returning kcols ucols nvs tbl) nvs)
        end
    end.
Proof.
  intros Hnames Hcols kcols ucols nvs.
  unfold statement_of, upsert_statement. fold kcols ucols.
  by rewrite new_values_records.
Qed.

(** The records of a batch as new rows: keyed, complete and with distinct
    keys. *)
Lemma records_keyed model (objects : list Obj) keys using_ nv :
  NoDup (name <$> meta_fields model) →
  NoDup (column <$> meta_fields model) →
  (∀ o f, o ∈ objects → f ∈ key_fields_of model (keys_or_pk model keys) →
     sql_cast engine (db_type f (connections using_))
       (get_db_prep_save f o (connections using_)) ≠ PNone) →
  nv ∈ (record (connections using_) (_model_fields model) <$> objects) →
  keys_agree (column <$> key_fields_of model (keys_or_pk model keys)) nv nv.
Proof.
  intros Hnames Hcols Hnn (o & -> & Ho)%list_elem_of_fmap.
  apply keys_agree_record_refl; [done.. |]. intros f Hf. by apply Hnn.
Qed.

Lemma records_full model (objects : list Obj) keys skip_for_update using_ nv c :
  NoDup (name <$> meta_fields model) →
  NoDup (column <$> meta_fields model) →
  nv ∈ (record (connections using_) (_model_fields model) <$> objects) →
  c ∈ (column <$> update_fields_of model (keys_or_pk model keys) skip_for_update) →
  is_Some (nv !! c).
Proof.
  intros Hnames Hcols (o & -> & Ho)%list_elem_of_fmap (f & -> & Hf)%list_elem_of_fmap.
  rewrite lookup_record; [by eexists | done |].
  by eapply update_fields_subseteq.
Qed.

Lemma records_unique model (objects : list Obj) keys using_ i j x y :
  NoDup (name <$> meta_fields model) →
  NoDup (column <$> meta_fields model) →
  NoDup (key_of (connections using_) (key_fields_of model (keys_or_pk model keys)) <$> objects) →
  (record (connections using_) (_model_fields model) <$> objects) !! i = Some x →
  (record (connections using_) (_model_fields model) <$> objects) !! j = Some y →
  keys_agree (column <$> key_fields_of model (keys_or_pk model keys)) x y → i = j.
Proof.
  intros Hnames Hcols Hnd Hi Hj Hagree.
  rewrite list_lookup_fmap in Hi, Hj.
  destruct (objects !! i) as [oi|] eqn:Hoi; [| done].
  destruct (objects !! j) as [oj|] eqn:Hoj; [| done].
  cbn in Hi, Hj. simplify_eq.
  apply keys_agree_records in Hagree; [| done..].
  eapply NoDup_lookup; [exact Hnd | |].
  - rewrite list_lookup_fmap, Hoi. reflexivity.
  - rewrite list_lookup_fmap, Hoj. cbn. by rewrite Hagree.
Qed.

(** C7, as the code has it.  Take a model with distinct field names and
    columns, and records whose key values, cast to the types of their
    columns, are not NULL and pairwise distinct.  Let the second call
    prepare the same values for the table fields of these records as the
    first ([again] is [f.get_db_prep_save(f.pre_save(obj, True), ...)] at
    the time of the second call: the same as at the first unless a field's
    [pre_save] gives a new value at every call, as that of an [auto_now]
    field does).  Then the second call leaves the table as the first call
    left it: every row the second statement touches is updated to the
    values it holds already, and nothing is inserted. *)
Theorem upsert_idempotent model (objects : list Obj) keys skip_for_update using_
    (again : Field → Obj → Connection → pyval) w :
  NoDup (name <$> meta_fields model) →
  NoDup (column <$> meta_fields model) →
  (∀ o f, o ∈ objects → f ∈ _model_fields model →
     again f o (connections using_) = get_db_prep_save f o (connections using_)) →
  (∀ o f, o ∈ objects → f ∈ key_fields_of model (keys_or_pk model keys) →
     sql_cast engine (db_type f (connections using_))
       (get_db_prep_save f o (connections using_)) ≠ PNone) →
  NoDup (cast_key_tuple engine get_db_prep_save (connections using_)
           (key_fields_of model (keys_or_pk model keys)) <$> objects) →
  rows (insert_or_update_many databases connections again engine model objects keys
          skip_for_update using_
          (insert_or_update_many databases connections get_db_prep_save engine model objects
             keys skip_for_update using_ w).2).2
  = rows (insert_or_update_many databases connections get_db_prep_save engine model objects
            keys skip_for_update using_ w).2.
Proof.
  intros Hnames Hcols Hsame Hnn Hbatch.
  rewrite (insert_or_update_many_ext databases connections get_db_prep_save again) by done.
  rewrite (rows_after_call model objects keys skip_for_update using_
             (run model objects keys skip_for_update using_ w).2).
  rewrite (rows_after_call model objects keys skip_for_update using_ w).
  destruct objects as [|o os]; [done |].
  case_decide; [| done].
  case_decide; [done |].
  set (objects := o :: os) in *.
  destruct (statement model objects keys skip_for_update using_ (rows w)) as [rs|e] eqn:Hfirst.
  - rewrite statement_unfold in Hfirst by done. cbv zeta in Hfirst.
    rewrite statement_unfold by done. cbv zeta.
    destruct (column <$> update_fields_of _ _ _) as [|u us] eqn:Hu; [done |].
    destruct (column <$> key_fields_of _ _) as [|k ks] eqn:Hk; [done |].
    destruct (rejects engine _ (rows w)); [done |].
    injection Hfirst as <-.
    destruct (rejects engine _ _); [done |].
    rewrite <- Hu, <- Hk.
    apply upsert_twice.
    + intros c. by apply key_update_columns_disjoint.
    + intros nv Hnv. exact (records_keyed model objects keys using_ nv Hnames Hcols Hnn Hnv).
    + intros nv c Hnv Hc.
      exact (records_full model objects keys skip_for_update using_ nv c Hnames Hcols Hnv Hc).
    + intros i j x y Hi Hj Hxy.
      exact (records_unique model objects keys using_ i j x y Hnames Hcols Hbatch Hi Hj Hxy).
  - by rewrite Hfirst.
Qed.

(** C1, as the code has it.  Take a model with distinct field names and
    columns, and records whose key values, cast to the types of their
    columns, are not NULL, are pairwise distinct and are each held by at
    most one stored row.  After a call that returns, the key of every
    record selects exactly one row of the table.  That row holds the
    record's values, as cast, in the key fields and the update fields.
    When no stored row had the key, the row was inserted, once, and holds
    the record's value in every table field (its other columns are the
    engine's); otherwise it is the stored row, updated once, and every
    column outside the SET list ([skip_for_update] fields, auto fields) is
    as it was. *)
Theorem upsert_round_trip model (objects : list Obj) keys skip_for_update using_ w w' :
  NoDup (name <$> meta_fields model) →
  NoDup (column <$> meta_fields model) →
  (∀ o f, o ∈ objects → f ∈ key_fields_of model (keys_or_pk model keys) →
     sql_cast engine (db_type f (connections using_))
       (get_db_prep_save f o (connections using_)) ≠ PNone) →
  NoDup (cast_key_tuple engine get_db_prep_save (connections using_)
           (key_fields_of model (keys_or_pk model keys)) <$> objects) →
  (∀ o, o ∈ objects →
     length (rows_with_key_of engine get_db_prep_save (connections using_) (_model_fields model)
               (key_fields_of model (keys_or_pk model keys)) o (rows w)) ≤ 1) →
  insert_or_update_many databases connections get_db_prep_save engine model objects keys
    skip_for_update using_ w = (Ok tt, w') →
  ∀ o, o ∈ objects →
    ∃ m,
      rows_with_key_of engine get_db_prep_save (connections using_) (_model_fields model)
        (key_fields_of model (keys_or_pk model keys)) o (rows w') = [m]
      ∧ (∀ f, f ∈ key_fields_of model (keys_or_pk model keys)
              ∨ f ∈ update_fields_of model (keys_or_pk model keys) skip_for_update →
           cell m (column f)
           = sql_cast engine (db_type f (connections using_))
               (get_db_prep_save f o (connections using_)))
      ∧ (rows_with_key_of engine get_db_prep_save (connections using_) (_model_fields model)
           (key_fields_of model (keys_or_pk model keys)) o (rows w) = [] →
         ∀ f, f ∈ _model_fields model →
           cell m (column f)
           = sql_cast engine (db_type f (connections using_))
               (get_db_prep_save f o (connections using_)))
      ∧ (∀ m0,
           rows_with_key_of engine get_db_prep_save (connections using_) (_model_fields model)
             (key_fields_of model (keys_or_pk model keys)) o (rows w) = [m0] →
           m = set_cols (column <$> update_fields_of model (keys_or_pk model keys)
                                      skip_for_update)
                 (record_row engine get_db_prep_save (connections using_)
                    (_model_fields model) o) m0).
Proof.
  intros Hnames Hcols Hnn Hbatch Hstored Hrun o Ho.
  set (kcols := column <$> key_fields_of model (keys_or_pk model keys)).
  set (ucols := column <$> update_fields_of model (keys_or_pk model keys) skip_for_update).
  set (nvs := record (connections using_) (_model_fields model) <$> objects).
  set (r := record (connections using_) (_model_fields model) o).
  assert (rows w' = (update_row kcols ucols nvs <$> rows w)
                    ++ to_insert engine kcols (rows w)
                         (returning kcols ucols nvs (rows w)) nvs) as Hrows.
  { destruct objects as [|o1 os]; [by apply elem_of_nil in Ho |].
    rewrite insert_or_update_many_run in Hrun. cbv zeta in Hrun.
    case_decide; [| done].
    case_decide; [done |].
    destruct (statement_of _ _ _ _ _ _ _ _ _) as [rs|e] eqn:Hst; [| done].
    injection Hrun as <-. cbn [rows].
    rewrite statement_unfold in Hst by done. cbv zeta in Hst. fold kcols ucols nvs in Hst.
    destruct ucols, kcols; try done.
    destruct (rejects engine _ _); by simplify_eq. }
  assert (r ∈ nvs) as Hr by (by apply list_elem_of_fmap_2).
  pose proof (upsert_row_of_record engine kcols ucols nvs) as Hone.
  specialize (Hone (key_update_columns_disjoint model keys skip_for_update Hcols)).
  specialize (Hone (λ nv Hnv, records_keyed model objects keys using_ nv Hnames Hcols Hnn Hnv)).
  specialize (Hone (λ i j x y Hi Hj Hxy,
                      records_unique model objects keys using_ i j x y Hnames Hcols Hbatch
                        Hi Hj Hxy)).
  destruct (Hone (rows w) r Hr (Hstored o Ho)) as [k Hk]. clear Hone.
  unfold rows_with_key_of. fold kcols r. rewrite Hrows, Hk.
  assert (∀ f, f ∈ _model_fields model →
            cell (inserted_row engine (rows w) k r) (column f)
            = sql_cast engine (db_type f (connections using_))
                (get_db_prep_save f o (connections using_))) as Hnew.
  { intros f Hf. unfold cell. rewrite cell_inserted_row; unfold r.
    - by rewrite lookup_record.
    - rewrite lookup_record by done. by eexists. }
  destruct (filter (λ m, keys_agree kcols m r) (rows w)) as [|m0 rest] eqn:Hold.
  - exists (inserted_row engine (rows w) k r). split_and!; [done | | done | done].
    intros f [Hf|Hf]; apply Hnew.
    + by eapply key_fields_subseteq.
    + by eapply update_fields_subseteq.
  - exists (set_cols ucols r m0). split_and!; [done | | done | by intros ? [= ->]].
    assert (m0 ∈ filter (λ m, keys_agree kcols m r) (rows w)) as Hm0 by (rewrite Hold; left).
    apply list_elem_of_filter in Hm0 as [Hagree _].
    intros f [Hf|Hf]; rewrite cell_set_cols.
    + rewrite decide_False.
      * rewrite (keys_agree_cell kcols m0 r) by (done || by apply list_elem_of_fmap_2).
        apply cell_record; [done |]. by eapply key_fields_subseteq.
      * apply (key_update_columns_disjoint model keys skip_for_update Hcols).
        by apply list_elem_of_fmap_2.
    + rewrite decide_True by (by apply list_elem_of_fmap_2).
      apply cell_record; [done |]. by eapply update_fields_subseteq.
Qed.

End Table.

(** ** The round trip and the idempotence at the widgets model *)

Local Abbreviation widgets_call :=
  (insert_or_update_many Widgets.databases Widgets.connections
     Widgets.get_db_prep_save Widgets.engine Widgets.Widget).

(** The scenario of the specification: on an empty table the records A
    (qty 5) and B (qty 2) are both inserted, each with an id of the
    engine; a second call with A (qty 9) updates the row A and leaves the
    row B as it is. *)
Example widgets_scenario :
  let first := widgets_call [Widgets.a5; Widgets.b2] (Some ["sku"]) [] "default" in
  let second := widgets_call [Widgets.a9] (Some ["sku"]) [] "default" in
  (λ m : row, (cell m "id", cell m "sku", cell m "qty")) <$> rows (first Widgets.empty_table).2
  = [(PInt 1, PStr "B", PInt 2); (PInt 2, PStr "A", PInt 5)]
  ∧ (λ m : row, (cell m "id", cell m "sku", cell m "qty"))
    <$> rows (second (first Widgets.empty_table).2).2
    = [(PInt 1, PStr "B", PInt 2); (PInt 2, PStr "A", PInt 9)].
Proof. by vm_compute. Qed.

(** The keys are compared as the statement casts them: a record whose sku
    has seventeen characters updates the stored row that holds the first
    sixteen of them. *)
Example long_key_updates_stored_row :
  (λ m : row, (cell m "id", cell m "sku", cell m "qty"))
  <$> rows (widgets_call [Widgets.long_a] (Some ["sku"]) [] "default" Widgets.sixteen).2
  = [(PInt 1, PStr "ABCDEFGHIJKLMNOP", PInt 5)].
Proof. by vm_compute. Qed.

(** C1 as the specification states it fails: the stored widget A holds the
    note [old]; the record A with note [new] is written with
    [skip_for_update=["note"]]; afterwards the one row with key A still
    holds [old], not the record's value. *)
Lemma round_trip_fails_on_skipped_field :
  ¬ round_trip_as_specified Widgets.databases Widgets.connections
      Widgets.get_db_prep_save Widgets.engine
      Widgets.Widget [Widgets.a5] (Some ["sku"]) ["note"] "default"
      Widgets.one_row.
Proof.
  unfold round_trip_as_specified. cbv zeta. intros Hclaim.
  assert (NoDup (key_tuple Widgets.get_db_prep_save (Widgets.connections "default")
                   (key_fields_of Widgets.Widget (keys_or_pk Widgets.Widget (Some ["sku"])))
                 <$> [Widgets.a5])) as Hbatch by by_computation.
  set (call := widgets_call [Widgets.a5] (Some ["sku"]) ["note"] "default") in *.
  assert (call Widgets.one_row = (Ok tt, (call Widgets.one_row).2)) as Hrun by (by vm_compute).
  destruct (Hclaim ltac:(done) Hbatch _ Hrun Widgets.a5 (list_elem_of_here _ _))
    as (m & Hm & Hvalues).
  assert (Widgets.note ∈ _model_fields Widgets.Widget) as Hnote by (vm_compute; do 2 right; left).
  assert (Widgets.note ∉ key_fields_of Widgets.Widget (keys_or_pk Widgets.Widget (Some ["sku"])))
    as Hnokey.
  { change (Widgets.note ∉ [Widgets.sku]). intros Hin%list_elem_of_singleton.
    apply (f_equal name) in Hin. discriminate Hin. }
  specialize (Hvalues Widgets.note Hnote Hnokey).
  apply (f_equal (fmap (λ r : row, cell r (column Widgets.note)))) in Hm.
  rewrite list_fmap_singleton, Hvalues in Hm.
  vm_compute in Hm. discriminate Hm.
Qed.

(** Two stored rows with the key of a record are both updated, and the key
    selects two rows afterwards. *)
Lemma round_trip_two_stored_rows :
  length (rows_with_key_of Widgets.engine Widgets.get_db_prep_save Widgets.postgresql
            (_model_fields Widgets.Widget) [Widgets.sku] Widgets.a5
            (rows (widgets_call [Widgets.a5] (Some ["sku"]) [] "default"
                     Widgets.two_rows_one_key).2)) = 2.
Proof. by vm_compute. Qed.

(** A record whose key is NULL is inserted, and its key selects no row. *)
Lemma round_trip_null_key :
  length (rows (widgets_call [Widgets.unnamed] (Some ["sku"]) [] "default"
                  Widgets.empty_table).2) = 1
  ∧ rows_with_key_of Widgets.engine Widgets.get_db_prep_save Widgets.postgresql
      (_model_fields Widgets.Widget) [Widgets.sku] Widgets.unnamed
      (rows (widgets_call [Widgets.unnamed] (Some ["sku"]) [] "default"
               Widgets.empty_table).2) = [].
Proof. by vm_compute. Qed.

(** C7 as the specification states it fails: a record whose key is NULL
    matches no row, not even the row a first call inserted for it, so a
    second call inserts it again. *)
Lemma idempotence_fails_on_null_key :
  ¬ idempotent_as_specified Widgets.databases Widgets.connections
      Widgets.get_db_prep_save Widgets.engine
      Widgets.Widget [Widgets.unnamed] (Some ["sku"]) [] "default"
      Widgets.empty_table.
Proof.
  unfold idempotent_as_specified. cbv zeta. intros Hsame.
  apply (f_equal length) in Hsame. vm_compute in Hsame. discriminate Hsame.
Qed.

(** Two records with one key are both inserted by a first call; a second
    call updates both rows from one of them. *)
Lemma idempotence_fails_on_duplicate_keys :
  ¬ idempotent_as_specified Widgets.databases Widgets.connections
      Widgets.get_db_prep_save Widgets.engine
      Widgets.Widget [Widgets.a5; Widgets.a9] (Some ["sku"]) [] "default"
      Widgets.empty_table.
Proof.
  unfold idempotent_as_specified. cbv zeta. intros Hsame.
  apply (f_equal (λ tbl, (λ m : row, cell m "qty") <$> tbl)) in Hsame.
  vm_compute in Hsame. discriminate Hsame.
Qed.

(** So are two records whose keys differ as the records have them and are
    the same once cast to the type of the key column. *)
Lemma idempotence_fails_on_colliding_casts :
  NoDup (key_tuple Widgets.get_db_prep_save Widgets.postgresql [Widgets.sku]
         <$> [Widgets.long_a; Widgets.long_b])
  ∧ ¬ idempotent_as_specified Widgets.databases Widgets.connections
        Widgets.get_db_prep_save Widgets.engine
        Widgets.Widget [Widgets.long_a; Widgets.long_b] (Some ["sku"]) []
        "default" Widgets.empty_table.
Proof.
  split; [by_computation |].
  unfold idempotent_as_specified. cbv zeta. intros Hsame.
  apply (f_equal (λ tbl, (λ m : row, cell m "qty") <$> tbl)) in Hsame.
  vm_compute in Hsame. discriminate Hsame.
Qed.

(** A second call that prepares another value than the first (as for a
    field whose [pre_save] takes the time of the call) changes the row the
    first call wrote. *)
Lemma second_call_writes_new_values :
  rows (insert_or_update_many Widgets.databases Widgets.connections
          Widgets.get_db_prep_save_later Widgets.engine Widgets.Widget [Widgets.a5]
          (Some ["sku"]) [] "default"
          (widgets_call [Widgets.a5] (Some ["sku"]) [] "default" Widgets.empty_table).2).2
  ≠ rows (widgets_call [Widgets.a5] (Some ["sku"]) [] "default" Widgets.empty_table).2.
Proof.
  intros Hsame.
  apply (f_equal (λ tbl, (λ m : row, cell m "note") <$> tbl)) in Hsame.
  vm_compute in Hsame. discriminate Hsame.
Qed.

Lemma widget_keys_not_null (o : Widgets.widget) (f : Field) :
  o ∈ [Widgets.a5; Widgets.b2] →
  f ∈ key_fields_of Widgets.Widget (keys_or_pk Widgets.Widget (Some ["sku"])) →
  sql_cast Widgets.engine (db_type f (Widgets.connections "default"))
    (Widgets.get_db_prep_save f o (Widgets.connections "default")) ≠ PNone.
Proof.
  intros Ho Hf. change (f ∈ [Widgets.sku]) in Hf. apply list_elem_of_singleton in Hf as ->.
  apply elem_of_cons in Ho as [->|Ho]; [by vm_compute |].
  apply list_elem_of_singleton in Ho as ->. by vm_compute.
Qed.

Lemma widget_keys_stored_once (o : Widgets.widget) :
  o ∈ [Widgets.a5; Widgets.b2] →
  length (rows_with_key_of Widgets.engine Widgets.get_db_prep_save (Widgets.connections "default")
            (_model_fields Widgets.Widget)
            (key_fields_of Widgets.Widget (keys_or_pk Widgets.Widget (Some ["sku"]))) o
            (rows Widgets.one_row)) ≤ 1.
Proof.
  intros Ho. apply elem_of_cons in Ho as [->|Ho].
  - vm_compute. lia.
  - apply list_elem_of_singleton in Ho as ->. vm_compute. lia.
Qed.

Lemma upsert_round_trip_witness :
  ∃ m,
    rows_with_key_of Widgets.engine Widgets.get_db_prep_save (Widgets.connections "default")
      (_model_fields Widgets.Widget)
      (key_fields_of Widgets.Widget (keys_or_pk Widgets.Widget (Some ["sku"]))) Widgets.a5
      (rows (widgets_call [Widgets.a5; Widgets.b2] (Some ["sku"]) ["note"] "default"
               Widgets.one_row).2) = [m]
    ∧ cell m "qty" = PInt 5.
Proof.
  assert (NoDup (name <$> meta_fields Widgets.Widget)) as Hnames by by_computation.
  assert (NoDup (column <$> meta_fields Widgets.Widget)) as Hcols by by_computation.
  assert (NoDup (cast_key_tuple Widgets.engine Widgets.get_db_prep_save
                   (Widgets.connections "default")
                   (key_fields_of Widgets.Widget (keys_or_pk Widgets.Widget (Some ["sku"])))
                 <$> [Widgets.a5; Widgets.b2])) as Hbatch by by_computation.
  set (call := widgets_call [Widgets.a5; Widgets.b2] (Some ["sku"]) ["note"] "default").
  assert (call Widgets.one_row = (Ok tt, (call Widgets.one_row).2)) as Hrun by (by vm_compute).
  destruct (upsert_round_trip Widgets.databases Widgets.connections
              Widgets.get_db_prep_save Widgets.engine Widgets.Widget
              [Widgets.a5; Widgets.b2] (Some ["sku"]) ["note"] "default" Widgets.one_row
              (call Widgets.one_row).2 Hnames Hcols widget_keys_not_null Hbatch
              widget_keys_stored_once Hrun Widgets.a5 (list_elem_of_here _ _))
    as (m & Hm & Hvalues & _).
  exists m. split; [exact Hm |].
  apply (Hvalues Widgets.qty). right. vm_compute. left.
Defined.

Lemma upsert_idempotent_witness :
  rows (widgets_call [Widgets.a5; Widgets.b2] (Some ["sku"]) ["note"] "default"
          (widgets_call [Widgets.a5; Widgets.b2] (Some ["sku"]) ["note"] "default"
             Widgets.one_row).2).2
  = rows (widgets_call [Widgets.a5; Widgets.b2] (Some ["sku"]) ["note"] "default"
            Widgets.one_row).2.
Proof.
  apply (upsert_idempotent Widgets.databases Widgets.connections
           Widgets.get_db_prep_save Widgets.engine
           Widgets.Widget [Widgets.a5; Widgets.b2] (Some ["sku"]) ["note"]
           "default" Widgets.get_db_prep_save Widgets.one_row).
  - by_computation.
  - by_computation.
  - reflexivity.
  - apply widget_keys_not_null.
  - by_computation.
Defined.

(** * Further properties of the call *)

Section Further.

Context {Obj : Type}.
Variable databases : list string.
Variable connections : string -> Connection.
Variable get_db_prep_save : Field -> Obj -> Connection -> pyval.
Variable engine : Engine.

Local Abbreviation run := (insert_or_update_many databases connections get_db_prep_save engine).

(** X1. The call reads [keys] and [skip_for_update] only through the model
    fields they name: two calls whose keys name the same fields of the
    model, and whose [skip_for_update] lists name the same fields among
    those that are not keys, behave alike.  So a name that is the name of
    no field, a repeated name, the order of the names, and a key named in
    [skip_for_update] make no difference. *)
Theorem call_depends_on_named_fields model objects keys keys' skip skip' using_ w :
  (∀ f, f ∈ meta_fields model →
     (name f ∈ keys_or_pk model keys ↔ name f ∈ keys_or_pk model keys')) →
  (∀ f, f ∈ meta_fields model → name f ∉ keys_or_pk model keys →
     (name f ∈ skip ↔ name f ∈ skip')) →
  run model objects keys skip using_ w = run model objects keys' skip' using_ w.
Proof.
  intros Hkeys Hskip.
  assert (key_fields_of model (keys_or_pk model keys)
          = key_fields_of model (keys_or_pk model keys')) as Hkf.
  { unfold key_fields_of. apply filter_ext_in. intros f Hf.
    specialize (Hkeys f Hf). tauto. }
  assert (update_fields_of model (keys_or_pk model keys) skip
          = update_fields_of model (keys_or_pk model keys') skip') as Huf.
  { unfold update_fields_of. apply filter_ext_in. intros f Hf.
    specialize (Hkeys f Hf). specialize (Hskip f Hf). tauto. }
  destruct objects as [|o os]; [done |].
  rewrite !insert_or_update_many_run. cbv zeta.
  unfold sql_of, statement_of. by rewrite Hkf, Huf.
Qed.

(** X2. A call that raises, from the assertion or from the execution of
    the statement, leaves the table as it was and never reaches the commit
    of line 127. *)
Theorem failed_call_commits_nothing model objects keys skip_for_update using_ w e :
  (run model objects keys skip_for_update using_ w).1 = Raise e →
  rows (run model objects keys skip_for_update using_ w).2 = rows w
  ∧ ∀ alias, EvCommitUnlessManaged alias
             ∉ calls (run model objects keys skip_for_update using_) w.
Proof.
  intros Hraise. rewrite insert_or_update_many_calls.
  destruct objects as [|o os]; [done |].
  rewrite insert_or_update_many_run in *. cbv zeta in *.
  case_decide; [| split; [done |]; by intros alias ?%elem_of_nil].
  case_decide.
  - split; [done |]. intros alias ?%elem_of_nil. done.
  - destruct (statement_of _ _ _ _ _ _ _ _ _) as [rs|e']; [done |].
    split; [done |]. intros alias Hin.
    apply elem_of_cons in Hin as [?|Hin]; [done |].
    apply elem_of_cons in Hin as [?|Hin]; [done |].
    by apply elem_of_nil in Hin.
Qed.

(** X3. A call with records that returns has made exactly three calls, in
    this order: a cursor on [connections[using]], the one statement with
    its parameters on that cursor, and [commit_unless_managed] for the
    default alias; the table is then what the statement made of it. *)
Theorem successful_call_sequence model objects keys skip_for_update using_ w w' :
  objects ≠ [] →
  run model objects keys skip_for_update using_ w = (Ok tt, w') →
  log w' = log w
           ++ [EvCursor using_;
               EvExecute using_ (sql_of connections model objects keys skip_for_update using_)
                 (parameters_of connections get_db_prep_save model objects using_);
               EvCommitUnlessManaged DEFAULT_DB_ALIAS]
  ∧ statement_of connections get_db_prep_save engine model objects keys skip_for_update using_
      (rows w) = Ok (rows w').
Proof.
  intros Hobj Hrun. destruct objects as [|o os]; [done |].
  rewrite insert_or_update_many_run in Hrun. cbv zeta in Hrun.
  case_decide; [| done].
  case_decide; [done |].
  destruct (statement_of _ _ _ _ _ _ _ _ _) as [rs|e]; [| done].
  by injection Hrun as <-.
Qed.

(** X4. Without explicit keys, a model whose primary key is not an auto
    field is matched on its primary key: the key fields are that one
    field. *)
Theorem default_key_is_primary_key model keys :
  NoDup (name <$> meta_fields model) →
  meta_pk model ∈ meta_fields model →
  ¬ is_auto (meta_pk model) →
  keys = None ∨ keys = Some [] →
  key_fields_of model (keys_or_pk model keys) = [meta_pk model].
Proof.
  intros Hnames Hpk Hauto Hkeys.
  assert (keys_or_pk model keys = [name (meta_pk model)]) as -> by (by destruct Hkeys as [-> | ->]).
  unfold key_fields_of. apply filter_unique; [| done |].
  - intros i j a b Hi Hj [Ha _] [Hb _].
    apply list_elem_of_singleton in Ha, Hb.
    eapply NoDup_lookup; [exact Hnames | |].
    + rewrite list_lookup_fmap, Hi. reflexivity.
    + rewrite list_lookup_fmap, Hj. cbn. by rewrite Hb, <- Ha.
  - split; [by apply list_elem_of_singleton |].
    apply list_elem_of_fmap_2. by apply elem_of_model_fields.
Qed.

(** X5. When every table field is named in the keys or in
    [skip_for_update], no field is left to update, and the statement the
    call executes has nothing after SET. *)
Theorem nothing_to_set model objects keys skip_for_update using_ w alias sql params :
  (∀ f, f ∈ _model_fields model →
     name f ∈ keys_or_pk model keys ∨ name f ∈ skip_for_update) →
  EvExecute alias sql params ∈ calls (run model objects keys skip_for_update using_) w →
  update_fields_of model (keys_or_pk model keys) skip_for_update = []
  ∧ sql = statement_text (meta_db_table model)
            (column_list (connections using_) (_model_fields model))
            (values_list (connections using_) (_model_fields model) objects)
            ""
            (update_condition (connections using_) (key_fields_of model (keys_or_pk model keys)))
            (insert_condition (connections using_) (key_fields_of model (keys_or_pk model keys))).
Proof.
  intros Hall Hex.
  assert (update_fields_of model (keys_or_pk model keys) skip_for_update = []) as Hnone.
  { apply filter_nil_iff. intros f Hf (Hk & Hs & Hn).
    apply list_elem_of_fmap in Hn as (g & Hfg & Hg).
    destruct (Hall g Hg) as [?|?]; congruence. }
  split; [done |].
  apply executed_statement in Hex as (_ & _ & _ & -> & _).
  unfold sql_of, upsert_sql. by rewrite Hnone.
Qed.

End Further.

(** ** What a call does to the rows that are stored *)

Lemma update_row_off_set (kcols ucols : list string) (nvs : list row) (m : row) (c : string) :
  c ∉ ucols → update_row kcols ucols nvs m !! c = m !! c.
Proof.
  intros Hc. unfold update_row. destruct (last _); [| done].
  rewrite lookup_set_cols. by rewrite decide_False.
Qed.

Lemma upsert_statement_rows engine cols types ucols kcols n params tbl rs :
  upsert_statement engine cols types ucols kcols n params tbl = Ok rs →
  rs = (update_row kcols ucols (new_values engine cols types n params) <$> tbl)
       ++ to_insert engine kcols tbl
            (returning kcols ucols (new_values engine cols types n params) tbl)
            (new_values engine cols types n params).
Proof.
  unfold upsert_statement. destruct ucols, kcols; try done.
  destruct (rejects engine params tbl); intros H; by simplify_eq.
Qed.

Lemma length_new_values engine cols types n params :
  length (new_values engine cols types n params) = n.
Proof. unfold new_values. by rewrite length_fmap, length_reshape, length_replicate. Qed.

Section Stored.

Context {Obj : Type}.
Variable databases : list string.
Variable connections : string -> Connection.
Variable get_db_prep_save : Field -> Obj -> Connection -> pyval.
Variable engine : Engine.

Local Abbreviation run := (insert_or_update_many databases connections get_db_prep_save engine).

(** The table after any call: the stored rows, each in its place and
    changed by [update_row] at most, followed by new rows. *)
Lemma rows_after_any_call model objects keys skip_for_update using_ w :
  ∃ nvs added,
    rows (run model objects keys skip_for_update using_ w).2
    = (update_row (column <$> key_fields_of model (keys_or_pk model keys))
         (column <$> update_fields_of model (keys_or_pk model keys) skip_for_update) nvs
       <$> rows w) ++ added
    ∨ (rows (run model objects keys skip_for_update using_ w).2 = rows w).
Proof.
  exists (new_values engine (column <$> _model_fields model)
            ((λ f, db_type f (connections using_)) <$> _model_fields model) (length objects)
            (parameters_of connections get_db_prep_save model objects using_)).
  rewrite rows_after_call. destruct objects as [|o os]; [by exists []; right |].
  case_decide; [| by exists []; right].
  case_decide; [by exists []; right |].
  destruct (statement_of _ _ _ _ _ _ _ _ _) as [rs|e] eqn:Hst; [| by exists []; right].
  apply upsert_statement_rows in Hst as ->. eexists. by left.
Qed.

(** X6. A call deletes and moves no stored row, and changes a stored row
    in the columns of the SET list only.  With distinct field names and
    columns, the columns of the key fields, of the fields named in
    [skip_for_update] and of the auto fields are therefore as before in
    every stored row. *)
Theorem stored_rows_keep_their_place model objects keys skip_for_update using_ w i m :
  NoDup (name <$> meta_fields model) →
  NoDup (column <$> meta_fields model) →
  rows w !! i = Some m →
  ∃ m', rows (run model objects keys skip_for_update using_ w).2 !! i = Some m'
    ∧ (∀ c, c ∉ (column <$> update_fields_of model (keys_or_pk model keys) skip_for_update) →
         m' !! c = m !! c)
    ∧ (∀ f, f ∈ meta_fields model →
         name f ∈ keys_or_pk model keys ∨ name f ∈ skip_for_update ∨ is_auto f →
         m' !! column f = m !! column f).
Proof.
  intros Hnames Hcols Hm.
  assert (∃ m', rows (run model objects keys skip_for_update using_ w).2 !! i = Some m'
            ∧ ∀ c, c ∉ (column <$> update_fields_of model (keys_or_pk model keys)
                                     skip_for_update) → m' !! c = m !! c) as (m' & Hm' & Hoff).
  { destruct (rows_after_any_call model objects keys skip_for_update using_ w)
      as (nvs & added & [-> | ->]).
    - eexists. split.
      + rewrite lookup_app_l by (rewrite length_fmap; by eapply lookup_lt_Some).
        rewrite list_lookup_fmap, Hm. reflexivity.
      + intros c Hc. by apply update_row_off_set.
    - by exists m. }
  exists m'. split_and!; [done.. |].
  intros f Hf Hwhy. apply Hoff.
  intros (g & Hfg & Hg)%list_elem_of_fmap.
  apply elem_of_update_fields in Hg as (Hg & Hnk & Hns & Hn).
  assert (f = g) as -> by (by eapply fmap_inj_on).
  destruct Hwhy as [?|[?|Hauto]]; [done.. |].
  pose proof (name_of_model_field model g Hnames Hg Hn) as Htable.
  apply elem_of_model_fields in Htable as [_ Hna]. done.
Qed.

(** X7. With distinct field names and columns, a stored row whose key
    agrees with the key of no record of the batch, the record's values
    taken as the statement casts them, is after the call exactly what it
    was. *)
Theorem unmatched_rows_untouched model (objects : list Obj) keys skip_for_update using_ w i m :
  NoDup (name <$> meta_fields model) →
  NoDup (column <$> meta_fields model) →
  rows w !! i = Some m →
  (∀ o, o ∈ objects →
     ¬ keys_agree (column <$> key_fields_of model (keys_or_pk model keys)) m
         (record_row engine get_db_prep_save (connections using_) (_model_fields model) o)) →
  rows (run model objects keys skip_for_update using_ w).2 !! i = Some m.
Proof.
  intros Hnames Hcols Hm Hnone. rewrite rows_after_call.
  destruct objects as [|o os]; [done |].
  case_decide; [| done]. case_decide; [done |].
  destruct (statement_of _ _ _ _ _ _ _ _ _) as [rs|e] eqn:Hst; [| done].
  rewrite statement_unfold in Hst by done. cbv zeta in Hst.
  destruct (column <$> update_fields_of _ _ _) as [|u us] eqn:Hu; [done |].
  destruct (column <$> key_fields_of _ _) as [|k ks] eqn:Hk; [done |].
  destruct (rejects engine _ _); [done |].
  injection Hst as <-.
  rewrite lookup_app_l by (rewrite length_fmap; by eapply lookup_lt_Some).
  rewrite list_lookup_fmap, Hm. cbn. f_equal.
  apply update_row_unmatched. intros r Hr.
  change (r ∈ (record_row engine get_db_prep_save (connections using_) (_model_fields model)
               <$> o :: os)) in Hr.
  apply list_elem_of_fmap in Hr as (o' & -> & Ho'). by apply Hnone.
Qed.

(** X8. A call never makes the table shorter, and makes it longer by one
    row per record at most. *)
Theorem table_grows_by_records_at_most model objects keys skip_for_update using_ w :
  length (rows w)
  ≤ length (rows (insert_or_update_many databases connections get_db_prep_save engine model
                    objects keys skip_for_update using_ w).2)
  ∧ length (rows (insert_or_update_many databases connections get_db_prep_save engine model
                    objects keys skip_for_update using_ w).2)
    ≤ length (rows w) + length objects.
Proof.
  rewrite rows_after_call. destruct objects as [|o os]; [cbn; lia |].
  case_decide; [| lia]. case_decide; [lia |].
  destruct (statement_of _ _ _ _ _ _ _ _ _) as [rs|e] eqn:Hst; [| lia].
  apply upsert_statement_rows in Hst as ->.
  rewrite length_app, length_fmap.
  pose proof (length_to_insert engine
    (column <$> key_fields_of model (keys_or_pk model keys)) (rows w)
    (returning (column <$> key_fields_of model (keys_or_pk model keys))
       (column <$> update_fields_of model (keys_or_pk model keys) skip_for_update)
       (new_values engine (column <$> _model_fields model)
          ((λ f, db_type f (connections using_)) <$> _model_fields model) (length (o :: os))
          (parameters_of connections get_db_prep_save model (o :: os) using_))
       (rows w))
    (new_values engine (column <$> _model_fields model)
       ((λ f, db_type f (connections using_)) <$> _model_fields model) (length (o :: os))
       (parameters_of connections get_db_prep_save model (o :: os) using_))) as Hle.
  rewrite length_new_values in Hle. lia.
Qed.

(** X9. With distinct field names and columns, every row a call adds to
    the stored rows is the row of a record of the batch: it holds the
    record's value, as the statement casts it, in every table field (its
    other columns are the engine's), and the record is one whose key no
    stored row had.  Nothing is said of the order of the added rows, which
    is the engine's. *)
Theorem added_rows_are_records model (objects : list Obj) keys skip_for_update using_ w m :
  NoDup (name <$> meta_fields model) →
  NoDup (column <$> meta_fields model) →
  m ∈ drop (length (rows w))
        (rows (insert_or_update_many databases connections get_db_prep_save engine model
                 objects keys skip_for_update using_ w).2) →
  ∃ o, o ∈ objects
    ∧ (∀ f, f ∈ _model_fields model →
         m !! column f
         = Some (sql_cast engine (db_type f (connections using_))
                   (get_db_prep_save f o (connections using_))))
    ∧ rows_with_key_of engine get_db_prep_save (connections using_) (_model_fields model)
        (key_fields_of model (keys_or_pk model keys)) o (rows w) = [].
Proof.
  intros Hnames Hcols. rewrite rows_after_call.
  destruct objects as [|o os]; [rewrite drop_all; by intros ?%elem_of_nil |].
  case_decide; [| rewrite drop_all; by intros ?%elem_of_nil].
  case_decide; [rewrite drop_all; by intros ?%elem_of_nil |].
  destruct (statement_of _ _ _ _ _ _ _ _ _) as [rs|e] eqn:Hst;
    [| rewrite drop_all; by intros ?%elem_of_nil].
  rewrite statement_unfold in Hst by done. cbv zeta in Hst.
  set (kcols := column <$> key_fields_of model (keys_or_pk model keys)) in *.
  set (ucols := column <$> update_fields_of model (keys_or_pk model keys) skip_for_update) in *.
  set (nvs := record_row engine get_db_prep_save (connections using_) (_model_fields model)
              <$> o :: os) in *.
  assert (rs = (update_row kcols ucols nvs <$> rows w)
               ++ to_insert engine kcols (rows w) (returning kcols ucols nvs (rows w)) nvs)
    as ->.
  { destruct ucols, kcols; try done. destruct (rejects engine _ _); by simplify_eq. }
  rewrite drop_app_length' by (by rewrite length_fmap).
  intros (k & r & -> & Hr & Hnone)%elem_of_to_insert.
  apply list_elem_of_fmap in Hr as (o' & -> & Ho').
  exists o'. split_and!; [done | |].
  - intros f Hf. rewrite cell_inserted_row; rewrite lookup_record by done; [done | by eexists].
  - unfold rows_with_key_of. fold kcols. apply filter_nil_iff. intros m0 Hm0 Hagree.
    apply Hnone, Exists_exists. exists (update_row kcols ucols nvs m0). split.
    + apply list_elem_of_fmap_2, list_elem_of_filter. split; [| done].
      apply Exists_exists. eexists. split; [| exact Hagree]. by apply list_elem_of_fmap_2.
    + apply update_row_agree; [| done].
      intros c. by apply key_update_columns_disjoint.
Qed.

End Stored.

(** ** The further properties at the widgets and tags models *)

Ltac refuted H := exfalso; revert H; apply (bool_decide_unpack _); vm_compute; exact I.

Lemma call_depends_on_named_fields_witness :
  insert_or_update_many Widgets.databases Widgets.connections
    Widgets.get_db_prep_save Widgets.engine Widgets.Widget
    [Widgets.a5] (Some ["sku"; "bogus"; "sku"]) ["note"; "sku"; "nothing"] "default"
    Widgets.one_row
  = insert_or_update_many Widgets.databases Widgets.connections
      Widgets.get_db_prep_save Widgets.engine Widgets.Widget
      [Widgets.a5] (Some ["sku"]) ["note"] "default" Widgets.one_row.
Proof.
  apply call_depends_on_named_fields.
  - intros f Hf. change (f ∈ [Widgets.id; Widgets.sku; Widgets.qty; Widgets.note]) in Hf.
    repeat (apply elem_of_cons in Hf as [->|Hf]); [.. | by apply elem_of_nil in Hf];
      split; intros H; first [by_computation | refuted H].
  - intros f Hf Hkey. change (f ∈ [Widgets.id; Widgets.sku; Widgets.qty; Widgets.note]) in Hf.
    repeat (apply elem_of_cons in Hf as [->|Hf]); [.. | by apply elem_of_nil in Hf];
      split; intros H; first [by_computation | refuted H | refuted Hkey].
Defined.

Lemma failed_call_commits_nothing_witness :
  rows (insert_or_update_many Widgets.databases Widgets.connections
          Widgets.get_db_prep_save Widgets.engine Widgets.Widget
          [Widgets.a5] None [] "default" Widgets.one_row).2 = rows Widgets.one_row.
Proof.
  apply (failed_call_commits_nothing Widgets.databases Widgets.connections
           Widgets.get_db_prep_save Widgets.engine
           Widgets.Widget [Widgets.a5] None [] "default" Widgets.one_row
           (AssertionError "Empty key fields")).
  by vm_compute.
Defined.

Lemma successful_call_sequence_witness :
  log (insert_or_update_many Widgets.databases Widgets.connections
         Widgets.get_db_prep_save Widgets.engine Widgets.Widget
         [Widgets.a5] (Some ["sku"]) [] "replica" Widgets.empty_table).2
  = log Widgets.empty_table
    ++ [EvCursor "replica";
        EvExecute "replica"
          (sql_of Widgets.connections Widgets.Widget [Widgets.a5] (Some ["sku"]) [] "replica")
          (parameters_of Widgets.connections Widgets.get_db_prep_save Widgets.Widget
             [Widgets.a5] "replica");
        EvCommitUnlessManaged DEFAULT_DB_ALIAS].
Proof.
  apply (successful_call_sequence Widgets.databases Widgets.connections
           Widgets.get_db_prep_save Widgets.engine
           Widgets.Widget [Widgets.a5] (Some ["sku"]) [] "replica" Widgets.empty_table).
  - done.
  - by vm_compute.
Defined.

Lemma default_key_is_primary_key_witness :
  key_fields_of Tags.Tag (keys_or_pk Tags.Tag None) = [Tags.slug].
Proof.
  apply (default_key_is_primary_key Tags.Tag None).
  - by_computation.
  - left.
  - intros H. exact H.
  - by left.
Defined.

Lemma nothing_to_set_witness :
  update_fields_of Widgets.Widget (keys_or_pk Widgets.Widget (Some ["sku"])) ["qty"; "note"]
  = [].
Proof.
  assert (EvExecute "default"
    (sql_of Widgets.connections Widgets.Widget [Widgets.a5] (Some ["sku"]) ["qty"; "note"]
       "default")
    [PStr "A"; PInt 5; PStr "new"]
  ∈ calls (insert_or_update_many Widgets.databases Widgets.connections
             Widgets.get_db_prep_save Widgets.engine Widgets.Widget
             [Widgets.a5] (Some ["sku"]) ["qty"; "note"] "default") Widgets.one_row) as Hex
    by by_computation.
  refine (proj1 (nothing_to_set Widgets.databases Widgets.connections
                   Widgets.get_db_prep_save Widgets.engine Widgets.Widget
                   [Widgets.a5] (Some ["sku"]) ["qty"; "note"] "default" Widgets.one_row
                   _ _ _ _ Hex)).
  intros f Hf. change (f ∈ [Widgets.sku; Widgets.qty; Widgets.note]) in Hf.
  repeat (apply elem_of_cons in Hf as [->|Hf]); [.. | by apply elem_of_nil in Hf].
  - left. by_computation.
  - right. by_computation.
  - right. by_computation.
Defined.

Lemma stored_rows_keep_their_place_witness :
  ∃ m', rows (insert_or_update_many Widgets.databases Widgets.connections
                Widgets.get_db_prep_save Widgets.engine
                Widgets.Widget [Widgets.a5] (Some ["sku"]) ["note"] "default"
                Widgets.one_row).2 !! 0 = Some m'
    ∧ m' !! "note" = Widgets.stored 1 "A" 1 "old" !! "note".
Proof.
  destruct (stored_rows_keep_their_place Widgets.databases Widgets.connections
              Widgets.get_db_prep_save Widgets.engine
              Widgets.Widget [Widgets.a5] (Some ["sku"]) ["note"] "default" Widgets.one_row
              0 (Widgets.stored 1 "A" 1 "old") ltac:(by_computation) ltac:(by_computation) eq_refl)
    as (m' & Hm' & _ & Hkept).
  exists m'. split; [exact Hm' |].
  apply (Hkept Widgets.note).
  - do 3 right. left.
  - right. left. by_computation.
Defined.

Lemma unmatched_rows_untouched_witness :
  rows (insert_or_update_many Widgets.databases Widgets.connections
          Widgets.get_db_prep_save Widgets.engine Widgets.Widget
          [Widgets.b2] (Some ["sku"]) [] "default" Widgets.one_row).2 !! 0
  = Some (Widgets.stored 1 "A" 1 "old").
Proof.
  apply unmatched_rows_untouched.
  - by_computation.
  - by_computation.
  - reflexivity.
  - intros o Ho. apply list_elem_of_singleton in Ho as ->. by_computation.
Defined.

Lemma added_rows_are_records_witness :
  ∃ o, o ∈ [Widgets.a5; Widgets.b2]
    ∧ (∀ f, f ∈ _model_fields Widgets.Widget →
         Widgets.stored 2 "B" 2 "" !! column f
         = Some (sql_cast Widgets.engine (db_type f (Widgets.connections "default"))
                   (Widgets.get_db_prep_save f o (Widgets.connections "default"))))
    ∧ rows_with_key_of Widgets.engine Widgets.get_db_prep_save (Widgets.connections "default")
        (_model_fields Widgets.Widget)
        (key_fields_of Widgets.Widget (keys_or_pk Widgets.Widget (Some ["sku"]))) o
        (rows Widgets.one_row) = [].
Proof.
  apply (added_rows_are_records Widgets.databases Widgets.connections
           Widgets.get_db_prep_save Widgets.engine Widgets.Widget [Widgets.a5; Widgets.b2]
           (Some ["sku"]) [] "default" Widgets.one_row (Widgets.stored 2 "B" 2 ""));
    by_computation.
Defined.
